(** * Borrowing Power Calculator (assets/js/calculator.js)

    A shallow embedding of the calculator script and the proofs of its
    specified properties.

    The script is JavaScript: its numbers are IEEE 754 binary64 values and
    its strings are sequences of UTF-16 code units.  Numbers are modelled by
    [spec_float] at precision 53 and maximal exponent 1024, with the
    operations of the Standard Library's executable specification of
    floating-point arithmetic; strings by lists of code units.  The mutable
    module state ([comparisonChart], [debounceTimer]), the document and the
    timer table are threaded explicitly. *)

From Stdlib Require Import ZArith NArith List String Ascii Bool Lia.
From Stdlib Require Import Floats.SpecFloat.
From Stdlib Require Import QArith Qabs Qpower Lqa.
From Stdlib Require PrimFloat FloatOps.
From stdpp Require Import gmap strings list fin_maps.

Local Open Scope Z_scope.

(** ** The JavaScript platform: strings and numbers *)

Module JS.

(** Strings: sequences of UTF-16 code units. *)
Definition code_unit := N.
Definition jsstring := list code_unit.

(** An ASCII literal as a JavaScript string. *)
Fixpoint str (s : string) : jsstring :=
  match s with
  | EmptyString => []
  | String a r => N_of_ascii a :: str r
  end.

(** [a === b] on strings. *)
Definition strict_eq (a b : jsstring) : bool := bool_decide (a = b).

(** Numbers: binary64. *)
Definition prec : Z := 53.
Definition emax : Z := 1024.
Definition Number := spec_float.

Definition nan : Number := S754_nan.
Definition pos_zero : Number := S754_zero false.
Definition pos_infinity : Number := S754_infinity false.

(** The Number value for a mathematical integer (round to nearest, ties to
    even; overflow to an infinity). *)
Definition of_Z (z : Z) : Number := binary_normalize prec emax z 0 false.

(** The Number value for the decimal [(-1)^neg * m * 10^e10], correctly
    rounded: numeric literals of the source and the results of [parseInt]
    and [parseFloat] are of this form. *)
Definition of_decimal (neg : bool) (m : N) (e10 : Z) : Number :=
  match m with
  | N0 => S754_zero neg
  | Npos p =>
      if 0 <=? e10
      then binary_round prec emax neg (Z.to_pos (Zpos p * 10 ^ e10)) 0
      else SFdiv prec emax (S754_finite neg p 0)
             (S754_finite false (Z.to_pos (10 ^ (- e10))) 0)
  end.

(** The operator [*]. *)
Definition mul (x y : Number) : Number := SFmul prec emax x y.

(** ToBoolean on numbers: NaN, +0 and -0 are falsy. *)
Definition truthy (x : Number) : bool :=
  match x with
  | S754_nan | S754_zero _ => false
  | _ => true
  end.

(** [x || d] on numbers. *)
Definition or_else (x d : Number) : Number := if truthy x then x else d.

(** [0 < x] and [x < 0]: a comparison with NaN is false. *)
Definition is_positive (x : Number) : bool := SFltb pos_zero x.
Definition is_negative (x : Number) : bool := SFltb x pos_zero.

(** [x == y] on numbers: false when either is NaN. *)
Definition number_eq (x y : Number) : bool := SFeqb x y.

(** The mathematical value of a number when it is an integer. *)
Definition to_Z (x : Number) : option Z :=
  match x with
  | S754_zero _ => Some 0
  | S754_finite s m e =>
      let v := if 0 <=? e then Some (Zpos m * 2 ^ e)
               else if Zpos m mod 2 ^ (- e) =? 0 then Some (Zpos m / 2 ^ (- e))
               else None in
      (if s then Z.opp else id) <$> v
  | _ => None
  end.

(** *** Decimal digits *)

Definition is_digit (c : code_unit) : bool := ((48 <=? c) && (c <=? 57))%N.

Definition digit_value (c : code_unit) : N := (c - 48)%N.

(** The mathematical integer denoted by a sequence of decimal digits. *)
Definition digits_value (ds : jsstring) : N :=
  fold_left (fun acc c => (acc * 10 + digit_value c)%N) ds 0%N.

(** The decimal digits of a natural number, most significant first. *)
Fixpoint to_digits_aux (fuel : nat) (n : N) (acc : jsstring) : jsstring :=
  let acc' := (48 + n mod 10)%N :: acc in
  match fuel with
  | O => acc'
  | S f => if (n <? 10)%N then acc' else to_digits_aux f (n / 10) acc'
  end.

Definition to_digits (n : N) : jsstring :=
  to_digits_aux (N.to_nat (N.log2 n)) n [].

(** [s.replace(/[^0-9]/g, '')] *)
Definition strip_non_digits (s : jsstring) : jsstring := List.filter is_digit s.

(** White space and line terminators skipped by [parseInt] and
    [parseFloat] (StrWhiteSpaceChar). *)
Definition is_white_space (c : code_unit) : bool :=
  ((9 <=? c) && (c <=? 13) || (c =? 32) || (c =? 160) || (c =? 5760)
   || (8192 <=? c) && (c <=? 8202) || (c =? 8232) || (c =? 8233)
   || (c =? 8239) || (c =? 8287) || (c =? 12288) || (c =? 65279))%N.

Fixpoint drop_while (f : code_unit -> bool) (s : jsstring) : jsstring :=
  match s with
  | c :: r => if f c then drop_while f r else s
  | [] => []
  end.

Fixpoint take_while (f : code_unit -> bool) (s : jsstring) : jsstring :=
  match s with
  | c :: r => if f c then c :: take_while f r else []
  | [] => []
  end.

(** An optional sign: [true] for "-", and the rest of the string. *)
Definition read_sign (s : jsstring) : bool * jsstring :=
  match s with
  | c :: r =>
      if (c =? 45)%N then (true, r)
      else if (c =? 43)%N then (false, r)
      else (false, s)
  | [] => (false, s)
  end.

Fixpoint starts_with (p s : jsstring) : bool :=
  match p, s with
  | [], _ => true
  | a :: p', b :: s' => (a =? b)%N && starts_with p' s'
  | _ :: _, [] => false
  end.

(** [parseInt(s, 10)]: leading white space and a sign are skipped, the
    longest prefix of decimal digits is read; NaN when it is empty. *)
Definition parseInt10 (s : jsstring) : Number :=
  let '(neg, s1) := read_sign (drop_while is_white_space s) in
  match take_while is_digit s1 with
  | [] => nan
  | ds => of_decimal neg (digits_value ds) 0
  end.

(** The exponent part of a decimal literal, [0] when there is none. *)
Definition read_exponent (s : jsstring) : Z :=
  match s with
  | c :: r =>
      if ((c =? 101) || (c =? 69))%N then
        let '(eneg, r1) := read_sign r in
        let v := Z.of_N (digits_value (take_while is_digit r1)) in
        if eneg then - v else v
      else 0
  | [] => 0
  end.

(** [parseFloat(s)]: the longest prefix that is a StrDecimalLiteral. *)
Definition parseFloat (s : jsstring) : Number :=
  let '(neg, s1) := read_sign (drop_while is_white_space s) in
  if starts_with (str "Infinity") s1 then S754_infinity neg else
  let ip := take_while is_digit s1 in
  let s2 := drop_while is_digit s1 in
  let '(fp, s3) :=
    match s2 with
    | c :: r =>
        if (c =? 46)%N then (take_while is_digit r, drop_while is_digit r)
        else ([], s2)
    | [] => ([], s2)
    end in
  match ip ++ fp with
  | [] => nan
  | ds => of_decimal neg (digits_value ds)
            (read_exponent s3 - Z.of_nat (length fp))
  end.

(** *** Numbers to text *)

#[global] Instance spec_float_eq_dec : EqDecision spec_float.
Proof. solve_decision. Defined.

(** [x / 10^p] for the positive number [x = m * 2^e], as the quotient, the
    remainder and the divisor of an integer division. *)
Definition scale10 (m : positive) (e p : Z) : Z * Z * Z :=
  let n := Zpos m * 2 ^ Z.max 0 e * 10 ^ Z.max 0 (- p) in
  let d := 2 ^ Z.max 0 (- e) * 10 ^ Z.max 0 p in
  (n / d, n mod d, d).

(** The shortest decimal [s * 10^p] that rounds to [m * 2^e]: the largest
    [p] for which a multiple of [10^p] does, and of two such multiples the
    nearer one (the even one on a tie).  The search starts at [p] and goes
    down. *)
Fixpoint shortest_search (fuel : nat) (m : positive) (e p : Z) : N * Z :=
  match fuel with
  | O => (0%N, 0)
  | S f =>
      let '(q, r, d) := scale10 m e p in
      let x := S754_finite false m e in
      let lo := Z.to_N q in
      let hi := Z.to_N (q + 1) in
      let ok_lo := bool_decide (of_decimal false lo p = x) in
      let ok_hi := bool_decide (of_decimal false hi p = x) in
      if ok_lo && ok_hi then
        match 2 * r ?= d with
        | Lt => (lo, p)
        | Gt => (hi, p)
        | Eq => if Z.even q then (lo, p) else (hi, p)
        end
      else if ok_lo then (lo, p)
      else if ok_hi then (hi, p)
      else shortest_search f m e (p - 1)
  end.

Definition shortest_decimal (m : positive) (e : Z) : N * Z :=
  let '(q, _, _) := scale10 m e 0 in
  shortest_search 400 m e (Z.of_nat (length (to_digits (Z.to_N q)))).

(** The decimal that number formatting prints for [m * 2^e]: an integer up
    to [2^53] is its own shortest decimal and is taken as it is, any other
    value is printed from its shortest decimal, filled up with zeros (so
    987654321987654321 is printed as 987,654,321,987,654,300). *)
Definition decimal_expansion (m : positive) (e : Z) : N * Z :=
  match to_Z (S754_finite false m e) with
  | Some z => if z <=? 2 ^ 53 then (Z.to_N z, 0) else shortest_decimal m e
  | None => shortest_decimal m e
  end.

Definition sign_text (neg : bool) : jsstring := if neg then str "-" else [].

(** Digits in groups of three, separated by commas (the grouping of the
    locale en-AU).  [group_rev] works on the digits least significant
    first; [k] digits of the current group were already emitted. *)
Fixpoint group_rev (ds : jsstring) (k : nat) : jsstring :=
  match ds with
  | [] => []
  | d :: r =>
      match r with
      | [] => [d]
      | _ => if (k =? 2)%nat then d :: 44%N :: group_rev r 0
             else d :: group_rev r (S k)
      end
  end.

Definition group3 (ds : jsstring) : jsstring := rev (group_rev (rev ds) 0).

(** [n] written with at least [w] digits. *)
Definition pad_digits (w : nat) (n : N) : jsstring :=
  let ds := to_digits n in
  repeat 48%N (w - length ds) ++ ds.

Definition strip_trailing_zeros (ds : jsstring) : jsstring :=
  rev (drop_while (fun c => (c =? 48)%N) (rev ds)).

(** The decimal [s * 10^p] rounded to [f] fraction digits, half away from
    zero, as an integer number of units of [10^-f]. *)
Definition round_decimal (s : N) (p : Z) (f : nat) : N :=
  let k := p + Z.of_nat f in
  if 0 <=? k then (s * Z.to_N (10 ^ k))%N
  else ((2 * s + Z.to_N (10 ^ (- k))) / (2 * Z.to_N (10 ^ (- k))))%N.

(** [Intl.NumberFormat('en-AU', ...).format(x)] with grouping, no minimum
    and at most [f] fraction digits; [symbol] is the currency symbol, or
    empty for the decimal style. *)
Definition format_number (symbol : jsstring) (f : nat) (x : Number) : jsstring :=
  match x with
  | S754_nan => symbol ++ str "NaN"
  | S754_infinity s => sign_text s ++ symbol ++ [8734%N]
  | S754_zero s => sign_text s ++ symbol ++ str "0"
  | S754_finite s m e =>
      let '(d, p) := decimal_expansion m e in
      let n := round_decimal d p f in
      let unit := Z.to_N (10 ^ Z.of_nat f) in
      let frac := (n mod unit)%N in
      sign_text s ++ symbol ++ group3 (to_digits (n / unit))
        ++ (if (frac =? 0)%N then []
            else 46%N :: strip_trailing_zeros (pad_digits f frac))
  end.

(** [x.toLocaleString('en-AU')]: decimal style, at most three fraction
    digits. *)
Definition toLocaleString (x : Number) : jsstring := format_number [] 3 x.

(** Number::toString of a positive finite number (radix 10), from its
    shortest decimal of [k] digits and decimal exponent [n]. *)
Definition toString_pos (m : positive) (e : Z) : jsstring :=
  let '(s, p) := shortest_decimal m e in
  let ds := to_digits s in
  let k := Z.of_nat (length ds) in
  let n := k + p in
  if (k <=? n) && (n <=? 21) then ds ++ repeat 48%N (Z.to_nat (n - k))
  else if (0 <? n) && (n <=? 21) then
    take (Z.to_nat n) ds ++ 46%N :: drop (Z.to_nat n) ds
  else if (-6 <? n) && (n <=? 0) then
    str "0." ++ repeat 48%N (Z.to_nat (- n)) ++ ds
  else
    let ex := (if 0 <=? n - 1 then str "+" else str "-")
                ++ to_digits (Z.to_N (Z.abs (n - 1))) in
    match ds with
    | [d] => d :: str "e" ++ ex
    | d :: r => d :: 46%N :: r ++ str "e" ++ ex
    | [] => []
    end.

Definition toString (x : Number) : jsstring :=
  match x with
  | S754_nan => str "NaN"
  | S754_infinity s => sign_text s ++ str "Infinity"
  | S754_zero _ => str "0"
  | S754_finite s m e => sign_text s ++ toString_pos m e
  end.

(** [x.toFixed(f)]: the exact value rounded to [f] fraction digits, the
    larger neighbour on a tie; Number::toString from [10^21] on and for
    NaN and the infinities. *)
Definition toFixed (x : Number) (f : nat) : jsstring :=
  match x with
  | S754_finite s m e =>
      let '(q, r, d) := scale10 m e (- Z.of_nat f) in
      if 10 ^ (21 + Z.of_nat f) <=? q then toString x
      else
        let n := Z.to_N (if d <=? 2 * r then q + 1 else q) in
        let ds := pad_digits (S f) n in
        let w := (length ds - f)%nat in
        sign_text s ++ take w ds
          ++ (if (f =? 0)%nat then [] else 46%N :: drop w ds)
  | S754_zero _ => str "0" ++ (if (f =? 0)%nat then [] else 46%N :: repeat 48%N f)
  | _ => toString x
  end.

End JS.

Import JS.

(** ** The calculator *)

(** The figures computed by [calculate] (lines 57-66 of the source), before
    they are displayed. *)
Record DerivedFigures := {
  annualTrail : Number;
  bookValue : Number;
  workingCapital : Number;
  acquisitionFinance : Number;
  isAcquisition : bool;
  accessAmount : Number;
  accessPercent : jsstring;
  accessLabel : jsstring
}.

Definition figures (monthlyTrail multiple : Number) (purpose : jsstring)
  : DerivedFigures :=
  let annualTrail := mul monthlyTrail (of_decimal false 12 0) in
  let bookValue := mul annualTrail multiple in
  let workingCapital := mul bookValue (of_decimal false 5 (-1)) in
  let acquisitionFinance := mul bookValue (of_decimal false 7 (-1)) in
  let isAcquisition := strict_eq purpose (str "acquisition") in
  let accessAmount := if isAcquisition then acquisitionFinance else workingCapital in
  let accessPercent := if isAcquisition then str "70%" else str "50%" in
  let accessLabel :=
    if isAcquisition then str "Acquisition Finance" else str "Working Capital" in
  {| annualTrail := annualTrail; bookValue := bookValue;
     workingCapital := workingCapital; acquisitionFinance := acquisitionFinance;
     isAcquisition := isAcquisition; accessAmount := accessAmount;
     accessPercent := accessPercent; accessLabel := accessLabel |}.

(** *** Formatting and parsing (lines 16-36) *)

Definition formatCurrency (amount : Number) : jsstring :=
  format_number (str "$") 0 amount.

Definition formatNumberWithCommas (value : jsstring) : jsstring :=
  let num := strip_non_digits value in
  match num with
  | [] => []
  | _ => toLocaleString (parseInt10 num)
  end.

Definition parseFormattedNumber (value : jsstring) : Number :=
  let cleaned := strip_non_digits value in
  or_else (parseInt10 cleaned) (of_decimal false 0 0).

(** *** The page: the document and the chart of the module *)

Record Element := {
  value : jsstring;
  textContent : jsstring;
  selectionStart : Z;
  selectionEnd : Z
}.

(** An input of the group named loanPurpose. *)
Record Radio := { radio_value : jsstring; checked : bool }.

(** What a chart is built from; the remaining options of the source are
    constants. *)
Record Chart := {
  labels : list jsstring;
  data : list Number;
  backgroundColor : list jsstring
}.

Record Page := {
  elements : gmap string Element;    (* the elements that have an id *)
  loanPurpose : list Radio;          (* in document order *)
  comparisonChart : option Chart;    (* the module variable *)
  live_charts : nat                  (* charts built and not destroyed *)
}.

(** Code that reads and writes the page and may throw. *)
Inductive Error := TypeError.

Inductive Outcome (A : Type) :=
  | Return (a : A)
  | Throw (e : Error).
Arguments Return {A} a.
Arguments Throw {A} e.

Definition M (A : Type) : Type := Page -> Page * Outcome A.

Definition ret {A} (a : A) : M A := fun p => (p, Return a).

Definition throw {A} (e : Error) : M A := fun p => (p, Throw e).

Definition bind {A B} (c : M A) (k : A -> M B) : M B :=
  fun p =>
    match c p with
    | (p', Return a) => k a p'
    | (p', Throw e) => (p', Throw e)
    end.

Notation "x <- c ;; k" := (bind c (fun x => k))
  (at level 100, c at next level, right associativity).
Notation "c ;;; k" := (bind c (fun _ => k))
  (at level 100, right associativity).

(** A reading of the page. *)
Definition reads {A} (f : Page -> A) : M A := fun p => (p, Return (f p)).

(** [document.getElementById(id)]: the element, or null. *)
Definition getElementById (id : string) : M (option Element) :=
  reads (fun p => elements p !! id).

(** [el.value], a TypeError when [el] is null. *)
Definition get_value (el : option Element) : M jsstring :=
  match el with
  | Some e => ret (value e)
  | None => throw TypeError
  end.

(** The page with the element [id] replaced. *)
Definition with_element (id : string) (e : Element) (p : Page) : Page :=
  {| elements := <[id := e]> (elements p); loanPurpose := loanPurpose p;
     comparisonChart := comparisonChart p; live_charts := live_charts p |}.

Definition write_text (text : jsstring) (e : Element) : Element :=
  {| value := value e; textContent := text;
     selectionStart := selectionStart e; selectionEnd := selectionEnd e |}.

(** [document.getElementById(id).textContent = text] *)
Definition set_textContent (id : string) (text : jsstring) : M unit :=
  el <- getElementById id ;;
  match el with
  | Some e => fun p => (with_element id (write_text text e) p, Return tt)
  | None => throw TypeError
  end.

(** Lines 45-48. [querySelector] returns the first checked input of the
    group, or null. *)
Definition getSelectedPurpose (p : Page) : jsstring :=
  let selected := List.find checked (loanPurpose p) in
  match selected with
  | Some r => radio_value r
  | None => str "acquisition"
  end.

(** Lines 86-143.  The element with the id comparisonChart is the canvas;
    the Chart constructor comes from the charting library. *)
Definition updateComparisonChart (bookValue accessAmount : Number)
    (isAcquisition : bool) : M unit :=
  ctx <- getElementById "comparisonChart" ;;
  match ctx with
  | None => ret tt
  | Some _ =>
      fun p =>
        let live :=
          match comparisonChart p with
          | Some _ => Nat.pred (live_charts p)      (* comparisonChart.destroy() *)
          | None => live_charts p
          end in
        let accessLabel :=
          if isAcquisition then str "Acquisition (70%)"
          else str "Working Capital (50%)" in
        let accessColor :=
          if isAcquisition then str "#2e7d32" else str "#1976d2" in
        (Build_Page (elements p) (loanPurpose p)
           (Some {| labels := [str "Book Value"; accessLabel];
                    data := [bookValue; accessAmount];
                    backgroundColor := [str "#f26739"; accessColor] |})
           (S live),
         Return tt)
  end.

(** Line 53: the multiple read from the text of the field. *)
Definition read_multiple (text : jsstring) : Number :=
  or_else (parseFloat text) (of_decimal false 3 0).

(** Lines 50-82. *)
Definition calculate : M unit :=
  monthlyTrailInput <- getElementById "monthlyTrail" ;;
  trailText <- get_value monthlyTrailInput ;;
  let monthlyTrail := parseFormattedNumber trailText in
  bookMultiple <- getElementById "bookMultiple" ;;
  multipleText <- get_value bookMultiple ;;
  let multiple := read_multiple multipleText in
  purpose <- reads getSelectedPurpose ;;
  let f := figures monthlyTrail multiple purpose in
  set_textContent "multipleDisplay" (toFixed multiple 1 ++ str "x") ;;;
  set_textContent "displayMonthlyTrail" (formatCurrency monthlyTrail) ;;;
  set_textContent "annualTrail" (formatCurrency (annualTrail f)) ;;;
  set_textContent "displayMultiple" (toFixed multiple 1 ++ str "x") ;;;
  set_textContent "bookValue" (formatCurrency (bookValue f)) ;;;
  set_textContent "accessLabel" (accessLabel f) ;;;
  set_textContent "accessAmount" (formatCurrency (accessAmount f)) ;;;
  set_textContent "accessPercent" (accessPercent f ++ str " of book value") ;;;
  updateComparisonChart (bookValue f) (accessAmount f) (isAcquisition f).

(** *** Timers and debouncing (lines 12-14, 38-43, 84) *)

Definition DEBOUNCE_DELAY : N := 300.

Section Debounce.

(** [A]: the arguments a debounced function is called with; [S]: the state
    its callback works on. *)
Context {A S : Type}.

(** The event loop: the clock, the timers that are set and have not fired
    (with the time each is due and the arguments its callback captured) and
    the module variable [debounceTimer].  [fired] records the callbacks
    that ran, with the time. *)
Record Loop := {
  app : S;
  now : N;
  next_timer : nat;
  pending : gmap nat (N * A);
  debounceTimer : option nat;
  fired : list (N * A)
}.

Definition start (s : S) : Loop :=
  {| app := s; now := 0; next_timer := 1; pending := ∅;
     debounceTimer := None; fired := [] |}.

(** [clearTimeout(id)]; nothing happens for null or a timer that fired. *)
Definition clearTimeout (id : option nat) (l : Loop) : Loop :=
  match id with
  | None => l
  | Some i =>
      {| app := app l; now := now l; next_timer := next_timer l;
         pending := delete i (pending l);
         debounceTimer := debounceTimer l; fired := fired l |}
  end.

(** [setTimeout(callback, delay)]: the new timer's id and the loop. *)
Definition setTimeout (args : A) (delay : N) (l : Loop) : nat * Loop :=
  (next_timer l,
   {| app := app l; now := now l; next_timer := Datatypes.S (next_timer l);
      pending := <[next_timer l := ((now l + delay)%N, args)]> (pending l);
      debounceTimer := debounceTimer l; fired := fired l |}).

(** The function [debounce(func, delay)] returns, called with [args].  The
    timers of the loop all come from one debounced function, as in the
    script: a timer holds the arguments its callback captured, and [fire]
    applies [func] to them. *)
Definition debounce (delay : N) (args : A) (l : Loop) : Loop :=
  let '(id, l') := setTimeout args delay (clearTimeout (debounceTimer l) l) in
  {| app := app l'; now := now l'; next_timer := next_timer l';
     pending := pending l'; debounceTimer := Some id; fired := fired l' |}.

(** What the callbacks of the timers do: [func.apply(this, args)]. *)
Variable func : A -> S -> S.

(** Of two timers the one due first, the older one when both are due at
    the same time. *)
Definition sooner (x y : nat * (N * A)) : nat * (N * A) :=
  if (x.2.1 <? y.2.1)%N then x
  else if (y.2.1 <? x.2.1)%N then y
  else if (x.1 <=? y.1)%nat then x else y.

(** The next timer to fire up to time [t]. *)
Definition next_due (t : N) (l : Loop) : option (nat * (N * A)) :=
  match List.filter (fun x => (x.2.1 <=? t)%N) (map_to_list (pending l)) with
  | [] => None
  | x :: r => Some (fold_left sooner r x)
  end.

Definition fire (x : nat * (N * A)) (l : Loop) : Loop :=
  let t := N.max (now l) x.2.1 in
  {| app := func x.2.2 (app l); now := t; next_timer := next_timer l;
     pending := delete x.1 (pending l);
     debounceTimer := debounceTimer l; fired := fired l ++ [(t, x.2.2)] |}.

Fixpoint run_timers (fuel : nat) (t : N) (l : Loop) : Loop :=
  match fuel with
  | O => l
  | Datatypes.S f =>
      match next_due t l with
      | None => l
      | Some x => run_timers f t (fire x l)
      end
  end.

(** Time passes until [t]: the timers due by then fire, in order.  The
    callbacks set no timers, so there are at most [size (pending l)]. *)
Definition advance (t : N) (l : Loop) : Loop :=
  let l' := run_timers (size (pending l)) t l in
  {| app := app l'; now := N.max (now l') t; next_timer := next_timer l';
     pending := pending l'; debounceTimer := debounceTimer l';
     fired := fired l' |}.

(** What happens to the loop: the function debounced with [delay] is
    called, or time passes until [t]. *)
Variable delay : N.

Inductive Step :=
  | Call (args : A)
  | Wait (t : N).

Definition step (l : Loop) (s : Step) : Loop :=
  match s with
  | Call args => debounce delay args l
  | Wait t => advance t l
  end.

Definition run (steps : list Step) (l : Loop) : Loop := fold_left step steps l.

(** Calls at the given times. *)
Definition calls_at (calls : list (N * A)) : list Step :=
  flat_map (fun c => [Wait c.1; Call c.2]) calls.

(** Each call comes before the timer of the previous one is due. *)
Fixpoint in_window (t_prev : N) (calls : list (N * A)) : Prop :=
  match calls with
  | [] => True
  | c :: r => (t_prev <= c.1 /\ c.1 < t_prev + delay)%N /\ in_window c.1 r
  end.

End Debounce.

Arguments Loop : clear implicits.
Arguments Step : clear implicits.

(** An event; the script reads its target only. *)
Record Event := { target : string }.

(** Line 84.  A callback that throws ends there; the page keeps what was
    written before. *)
Definition recompute (_ : list Event) (p : Page) : Page := fst (calculate p).

Definition debouncedCalculate (args : list Event)
  : Loop (list Event) Page -> Loop (list Event) Page :=
  debounce DEBOUNCE_DELAY args.

(** *** The input handler (lines 145-163) *)

(** The setter of [input.value]: the caret moves to the end of the new
    value. *)
Definition set_value (v : jsstring) (e : Element) : Element :=
  {| value := v; textContent := textContent e;
     selectionStart := Z.of_nat (length v); selectionEnd := Z.of_nat (length v) |}.

(** An end of a selection brought into the value's length [len].  The
    ends are unsigned longs: a negative argument wraps around to more than
    any length. *)
Definition clamp_index (len i : Z) : Z := if i <? 0 then len else Z.min i len.

(** [input.setSelectionRange(s, e)] *)
Definition setSelectionRange (s e : Z) (el : Element) : Element :=
  let len := Z.of_nat (length (value el)) in
  let e' := clamp_index len e in
  let s' := Z.min (clamp_index len s) e' in
  {| value := value el; textContent := textContent el;
     selectionStart := s'; selectionEnd := e' |}.

(** Lines 146-159: the reformatting of the field, before the recomputation
    is scheduled.  The result is the position handed to
    [setSelectionRange]. *)
Definition reformat (e : Event) : M Z :=
  el <- getElementById (target e) ;;
  match el with
  | None => throw TypeError
  | Some input =>
      let cursorPosition := selectionStart input in
      let oldValue := value input in
      let oldLength := Z.of_nat (length oldValue) in
      let formatted := formatNumberWithCommas (value input) in
      let input1 := set_value formatted input in
      let newLength := Z.of_nat (length formatted) in
      let diff := newLength - oldLength in
      let newPosition := Z.max 0 (cursorPosition + diff) in
      let input2 := setSelectionRange newPosition newPosition input1 in
      fun p => (with_element (target e) input2 p, Return newPosition)
  end.

Definition handleCurrencyInput (e : Event) (l : Loop (list Event) Page)
  : Loop (list Event) Page :=
  match reformat e (app l) with
  | (p, Return _) =>
      debouncedCalculate []
        {| app := p; now := now l; next_timer := next_timer l;
           pending := pending l; debounceTimer := debounceTimer l;
           fired := fired l |}
  | (p, Throw _) =>
      {| app := p; now := now l; next_timer := next_timer l;
         pending := pending l; debounceTimer := debounceTimer l;
         fired := fired l |}
  end.

(** *** The listeners (lines 166-195) *)

(** Lines 176-180: whether the keypress listener of the trail field calls
    [preventDefault] for the key [key]; the regular expression has no
    anchors, it finds a digit anywhere in the name of the key. *)
Definition keypress_prevented (key : jsstring) : bool :=
  negb (existsb is_digit key)
  && negb (strict_eq key (str "Backspace"))
  && negb (strict_eq key (str "Delete"))
  && negb (strict_eq key (str "ArrowLeft"))
  && negb (strict_eq key (str "ArrowRight")).

(** What the user does, as the events the script listens to.  The browser
    has changed the field or the radio group before it runs the listeners:
    [TrailInput] and [MultipleInput] carry the text now in the field (and
    the selection), [PurposeChange i] checks the radio [i] of the group and
    unchecks the others.  [Elapse t]: time passes until [t]. *)
Inductive UserEvent :=
  | TrailInput (text : jsstring) (s e : Z)
  | MultipleInput (text : jsstring)
  | MultipleChange
  | PurposeChange (i : nat)
  | Elapse (t : N).

(** The loop with its page replaced. *)
Definition set_app {A S} (s : S) (l : Loop A S) : Loop A S :=
  {| app := s; now := now l; next_timer := next_timer l; pending := pending l;
     debounceTimer := debounceTimer l; fired := fired l |}.

(** The field after the user edited it. *)
Definition edit (text : jsstring) (s e : Z) (el : Element) : Element :=
  {| value := text; textContent := textContent el;
     selectionStart := s; selectionEnd := e |}.

(** The radio group after the user chose the radio [i]. *)
Definition check_radio (i : nat) (p : Page) : Page :=
  {| elements := elements p;
     loanPurpose :=
       imap (fun j r => {| radio_value := radio_value r;
                           checked := bool_decide (j = i) |}) (loanPurpose p);
     comparisonChart := comparisonChart p; live_charts := live_charts p |}.

(** The listeners registered at lines 170-191, each on the element it was
    found for. *)
Definition dispatch (l : Loop (list Event) Page) (ev : UserEvent)
  : Loop (list Event) Page :=
  match ev with
  | TrailInput text s e =>
      match elements (app l) !! "monthlyTrail" with
      | Some el =>
          handleCurrencyInput {| target := "monthlyTrail" |}
            (set_app (with_element "monthlyTrail" (edit text s e el) (app l)) l)
      | None => l
      end
  | MultipleInput text =>
      match elements (app l) !! "bookMultiple" with
      | Some el =>
          debouncedCalculate [ {| target := "bookMultiple" |} ]
            (set_app (with_element "bookMultiple"
                        (edit text (selectionStart el) (selectionEnd el) el)
                        (app l)) l)
      | None => l
      end
  | MultipleChange =>
      match elements (app l) !! "bookMultiple" with
      | Some _ => set_app (recompute [ {| target := "bookMultiple" |} ] (app l)) l
      | None => l
      end
  | PurposeChange i =>
      match loanPurpose (app l) !! i with
      | Some _ =>
          set_app (recompute [ {| target := "loanPurpose" |} ]
                     (check_radio i (app l))) l
      | None => l
      end
  | Elapse t => advance recompute t l
  end.

(** Line 194, after the listeners are registered. *)
Definition load (p : Page) : Loop (list Event) Page := start (recompute [] p).

(** The events, one after the other. *)
Definition play (events : list UserEvent) (l : Loop (list Event) Page)
  : Loop (list Event) Page :=
  fold_left dispatch events l.

(** ** The specification's functions

    The input sanitizer as the specification words it, on mathematical
    integers. *)

(** [parseInteger]: the non-digits are stripped and the remainder is parsed
    to a non-negative integer, [0] when nothing remains. *)
Definition spec_parseInteger (text : jsstring) : N :=
  digits_value (strip_non_digits text).

(** [formatWithGroupingSeparators]: the integer with thousands separators,
    the empty string when there are no digits. *)
Definition spec_formatWithGroupingSeparators (text : jsstring) : jsstring :=
  match strip_non_digits text with
  | [] => []
  | ds => group3 (to_digits (digits_value ds))
  end.

(** ** Pages *)

(** The elements [calculate] writes text to, in the order of the source. *)
Definition display_targets : list string :=
  ["multipleDisplay"; "displayMonthlyTrail"; "annualTrail"; "displayMultiple";
   "bookValue"; "accessLabel"; "accessAmount"; "accessPercent"].

Definition has_inputs (p : Page) : Prop :=
  is_Some (elements p !! "monthlyTrail") /\ is_Some (elements p !! "bookMultiple").

(** Both inputs and every display target are in the document; the canvas
    of the chart need not be. *)
Definition complete (p : Page) : Prop :=
  has_inputs p /\ Forall (fun id => is_Some (elements p !! id)) display_targets.

(** The text of the element [id]. *)
Definition text_of (id : string) (p : Page) : option jsstring :=
  textContent <$> elements p !! id.

Definition blank (v : jsstring) : Element :=
  {| value := v; textContent := []; selectionStart := 0; selectionEnd := 0 |}.

(** A page as it is loaded: a trail of 10,000, the multiple 3, no purpose
    checked. *)
Definition sample_page : Page :=
  {| elements :=
       list_to_map
         [("monthlyTrail", blank (str "10,000")); ("bookMultiple", blank (str "3"));
          ("multipleDisplay", blank []); ("displayMonthlyTrail", blank []);
          ("annualTrail", blank []); ("displayMultiple", blank []);
          ("bookValue", blank []); ("accessLabel", blank []);
          ("accessAmount", blank []); ("accessPercent", blank []);
          ("comparisonChart", blank [])];
     loanPurpose :=
       [ {| radio_value := str "acquisition"; checked := false |};
         {| radio_value := str "working"; checked := false |} ];
     comparisonChart := None; live_charts := 0 |}.

(** The same page without one of its elements. *)
Definition without (id : string) (p : Page) : Page :=
  {| elements := delete id (elements p); loanPurpose := loanPurpose p;
     comparisonChart := comparisonChart p; live_charts := live_charts p |}.

(** The texts [calculate] displays, from the texts of the two inputs and
    the purpose: each display target with its text. *)
Definition displayed (trailText multipleText purpose : jsstring)
  : list (string * jsstring) :=
  let monthlyTrail := parseFormattedNumber trailText in
  let multiple := read_multiple multipleText in
  let f := figures monthlyTrail multiple purpose in
  [("multipleDisplay", toFixed multiple 1 ++ str "x");
   ("displayMonthlyTrail", formatCurrency monthlyTrail);
   ("annualTrail", formatCurrency (annualTrail f));
   ("displayMultiple", toFixed multiple 1 ++ str "x");
   ("bookValue", formatCurrency (bookValue f));
   ("accessLabel", accessLabel f);
   ("accessAmount", formatCurrency (accessAmount f));
   ("accessPercent", accessPercent f ++ str " of book value")].

(** ** Event loops *)

(** Every timer that is set is the one [debounceTimer] names. *)
Definition single_flight {A S} (l : Loop A S) : Prop :=
  forall i x, pending l !! i = Some x -> debounceTimer l = Some i.

(** ** Invariants of the page

    [keeps I c]: the computation [c] keeps the invariant [I], whether it
    returns or throws. *)
Definition keeps {A} (I : Page -> Prop) (c : M A) : Prop :=
  forall p, I p -> I (fst (c p)).

(** The live charts are the one chart the module variable holds, or
    none. *)
Definition chart_accounted (p : Page) : Prop :=
  live_charts p = match comparisonChart p with Some _ => 1%nat | None => 0%nat end.

(** [q] has the radio group of [p], the same elements, and in each the
    same value and selection. *)
Definition same_fields (p q : Page) : Prop :=
  loanPurpose q = loanPurpose p /\
  forall id,
    (fun e => (value e, selectionStart e, selectionEnd e)) <$> elements q !! id
    = (fun e => (value e, selectionStart e, selectionEnd e)) <$> elements p !! id.

(** A recomputation returns and finds nothing to change. *)
Definition synced (p : Page) : Prop := calculate p = (p, Return tt).

(** The chart lines 99-142 construct. *)
Definition chart_of (bookValue accessAmount : Number) (isAcquisition : bool) : Chart :=
  {| labels := [str "Book Value";
                if isAcquisition then str "Acquisition (70%)"
                else str "Working Capital (50%)"];
     data := [bookValue; accessAmount];
     backgroundColor := [str "#f26739";
                         if isAcquisition then str "#2e7d32" else str "#1976d2"] |}.

(** The timer that is set is due within the delay, and not before now. *)
Definition due_soon {A S} (delay : N) (l : Loop A S) : Prop :=
  forall i x, pending l !! i = Some x -> (now l <= x.1 /\ x.1 <= now l + delay)%N.

(** The invariant of the page and its timers. *)
Definition steady (l : Loop (list Event) Page) : Prop :=
  complete (app l) /\ single_flight l /\ due_soon DEBOUNCE_DELAY l /\
  (pending l = ∅ -> synced (app l)).

(** One timer at most, and one chart at most. *)
Definition orderly (l : Loop (list Event) Page) : Prop :=
  single_flight l /\ due_soon DEBOUNCE_DELAY l /\ chart_accounted (app l).

(** Calls in the order of their times, none before [t_prev]. *)
Fixpoint in_order {A} (t_prev : N) (calls : list (N * A)) : Prop :=
  match calls with
  | [] => True
  | c :: r => (t_prev <= c.1)%N /\ in_order c.1 r
  end.

(** The calls whose timer is not cancelled by the next call: those
    followed by no call before the timer is due. *)
Fixpoint survivors {A} (delay : N) (calls : list (N * A)) : list (N * A) :=
  match calls with
  | [] => []
  | c :: r =>
      match r with
      | [] => [c]
      | d :: _ => if (c.1 + delay <=? d.1)%N then c :: survivors delay r
                  else survivors delay r
      end
  end.

(** The number [x] is the non-negative integer [n], held exactly. *)
Definition holds_integer (x : Number) (n : N) : Prop :=
  match n with
  | N0 => x = S754_zero false
  | Npos p => exists m e, x = S754_finite false m e /\ e <= 0 /\
                          Zpos m = Zpos p * 2 ^ (- e)
  end.

(** The rational number a finite binary64 number stands for. *)
Definition exact_value (x : Number) : option Q :=
  match x with
  | S754_zero _ => Some 0%Q
  | S754_finite s m e => Some (inject_Z (if s then Zneg m else Zpos m) * 2 ^ e)%Q
  | _ => None
  end.

(** The record [r] is what is left of [m] after shifts that divide by [h]:
    the quotient, the bit shifted out last and whether a lower bit was
    set. *)
Definition shr_inv (m h : Z) (r : shr_record) : Prop :=
  exists b t,
    2 * m = 2 * shr_m r * h + b * h + t /\ 0 <= t < h /\ (b = 0 \/ b = 1) /\
    shr_r r = (b =? 1) /\ shr_s r = negb (t =? 0) /\ 0 <= shr_m r.

(** * Properties *)

(** ** Binary64 arithmetic *)

Lemma mul_comm (x y : Number) : mul x y = mul y x.
Proof.
  destruct x as [sx|sx| |sx mx ex], y as [sy|sy| |sy my ey]; simpl;
    try reflexivity; try (now rewrite xorb_comm).
  unfold mul, SFmul. now rewrite xorb_comm, Pos.mul_comm, Z.add_comm.
Qed.

Lemma digits2_pos_size (p : positive) : digits2_pos p = Pos.size p.
Proof. induction p; simpl; congruence. Qed.

Lemma digits2_pos_bound (p : positive) (k : Z) :
  0 <= k -> Zpos p < 2 ^ k -> Zpos (digits2_pos p) <= k.
Proof.
  intros Hk Hp. rewrite digits2_pos_size.
  pose proof (Pos.size_le p) as Hle.
  apply Pos2Z.pos_le_pos in Hle. rewrite Pos2Z.inj_pow in Hle.
  change (Zpos p~0) with (2 * Zpos p) in Hle.
  destruct (Z_lt_le_dec k (Zpos (Pos.size p))) as [Hlt|]; [|assumption].
  assert (2 ^ (k + 1) <= 2 ^ Zpos (Pos.size p))
    by (apply Z.pow_le_mono_r; lia).
  rewrite Z.pow_add_r in * by lia. lia.
Qed.

Lemma iter_xO_value (p k : positive) :
  Zpos (Pos.iter xO p k) = Zpos p * 2 ^ Zpos k.
Proof.
  induction k as [|k IH] using Pos.peano_ind.
  - simpl. lia.
  - rewrite Pos.iter_succ, Pos2Z.inj_succ, Z.pow_succ_r by lia.
    rewrite Pos2Z.inj_xO, IH. ring.
Qed.

Lemma iter_xO_digits (p k : positive) :
  digits2_pos (Pos.iter xO p k) = (digits2_pos p + k)%positive.
Proof.
  induction k as [|k IH] using Pos.peano_ind.
  - simpl. lia.
  - rewrite Pos.iter_succ. simpl. rewrite IH. lia.
Qed.

(** Rounding a mantissa that already has the exponent of its format does
    nothing. *)
Lemma shr_zero_shift (m e : Z) (l : location) :
  fexp prec emax (Zdigits2 m + e) <= e ->
  shr_fexp prec emax m e l = (shr_record_of_loc m l, e).
Proof.
  intros H. unfold shr_fexp, shr.
  destruct (fexp prec emax (Zdigits2 m + e) - e) eqn:E; try reflexivity. lia.
Qed.

Lemma binary_round_aux_exact (s : bool) (m : positive) (e : Z) :
  fexp prec emax (Zpos (digits2_pos m) + e) <= e -> e <= emax - prec ->
  binary_round_aux prec emax s (Zpos m) e loc_Exact = S754_finite s m e.
Proof.
  intros H1 H2. unfold binary_round_aux.
  rewrite shr_zero_shift by exact H1. simpl.
  rewrite shr_zero_shift by exact H1. simpl.
  apply Z.leb_le in H2. now rewrite H2.
Qed.

(** An integer of at most 53 bits is a binary64 number. *)
Lemma binary_round_small (s : bool) (p : positive) :
  Zpos (digits2_pos p) <= 53 ->
  exists m e, binary_round prec emax s p 0 = S754_finite s m e /\ e <= 0 /\
    Zpos m = Zpos p * 2 ^ (- e).
Proof.
  intros Hd. unfold binary_round, shl_align.
  assert (Hf : fexp prec emax (Zpos (digits2_pos p) + 0) = Zpos (digits2_pos p) - 53).
  { unfold fexp, emin, prec, emax. lia. }
  rewrite Hf.
  destruct (Zpos (digits2_pos p) - 53 - 0) as [|k|k] eqn:Hk; try lia.
  - exists p, 0. split; [|split; [lia|simpl; lia]].
    apply binary_round_aux_exact; unfold fexp, emin, prec, emax; lia.
  - exists (Pos.iter xO p k), (Zpos (digits2_pos p) - 53).
    split; [|split; [lia|]].
    + apply binary_round_aux_exact; rewrite ?iter_xO_digits;
        unfold fexp, emin, prec, emax; lia.
    + rewrite iter_xO_value. f_equal. f_equal. lia.
Qed.

Lemma to_Z_scaled (s : bool) (m p : positive) (e : Z) :
  e <= 0 -> Zpos m = Zpos p * 2 ^ (- e) ->
  to_Z (S754_finite s m e) = Some (if s then Zneg p else Zpos p).
Proof.
  intros He Hm. unfold to_Z.
  destruct (Z.leb_spec 0 e) as [H0|H0].
  - assert (e = 0) by lia. subst e. simpl in Hm.
    rewrite Z.pow_0_r, Z.mul_1_r. rewrite Hm. destruct s; simpl; f_equal; lia.
  - assert (Hpow : 0 < 2 ^ (- e)) by (apply Z.pow_pos_nonneg; lia).
    rewrite Hm, Z.mod_mul, Z.div_mul by lia. simpl. destruct s; reflexivity.
Qed.

Lemma of_decimal_int (neg : bool) (p : positive) :
  of_decimal neg (Npos p) 0 = binary_round prec emax neg p 0.
Proof. unfold of_decimal. simpl. now rewrite Pos.mul_1_r. Qed.

Lemma of_decimal_exact (n : N) :
  Z.of_N n <= 2 ^ 53 -> to_Z (of_decimal false n 0) = Some (Z.of_N n).
Proof.
  intros Hn. destruct n as [|p]; [reflexivity|].
  rewrite of_decimal_int.
  destruct (Z.eq_dec (Zpos p) (2 ^ 53)) as [E|E].
  - injection E as ->. vm_compute. reflexivity.
  - destruct (binary_round_small false p) as (m & e & -> & He & Hm).
    + apply digits2_pos_bound; simpl in *; lia.
    + now rewrite (to_Z_scaled false m p e).
Qed.

Lemma shr_1_nonneg (mrs : shr_record) : 0 <= shr_m mrs -> 0 <= shr_m (shr_1 mrs).
Proof.
  destruct mrs as [m r s]. destruct m as [|[q|q|]|q]; simpl; lia.
Qed.

Lemma iter_shr_1_nonneg (p : positive) (mrs : shr_record) :
  0 <= shr_m mrs -> 0 <= shr_m (SpecFloat.iter_pos shr_1 p mrs).
Proof.
  revert mrs. induction p as [p IH|p IH|]; intros mrs H; simpl.
  - apply IH, IH. now apply shr_1_nonneg.
  - now apply IH, IH.
  - now apply shr_1_nonneg.
Qed.

Lemma shr_record_of_loc_m (m : Z) (l : location) : shr_m (shr_record_of_loc m l) = m.
Proof. destruct l as [|[| |]]; reflexivity. Qed.

Lemma shr_fexp_nonneg (m e : Z) (l : location) :
  0 <= m ->
  0 <= shr_m (shr_fexp prec emax m e l).1 /\ e <= (shr_fexp prec emax m e l).2.
Proof.
  intros Hm. unfold shr_fexp, shr.
  destruct (fexp prec emax (Zdigits2 m + e) - e) as [|k|k]; simpl;
    rewrite ?shr_record_of_loc_m; try (split; lia).
  split; [|lia]. apply iter_shr_1_nonneg. now rewrite shr_record_of_loc_m.
Qed.

Lemma round_nearest_even_nonneg (m : Z) (l : location) :
  0 <= m -> 0 <= round_nearest_even m l.
Proof.
  intros Hm. destruct l as [|[| |]]; simpl; try lia.
  destruct (Z.even m); lia.
Qed.

(** Rounding never goes below the exponent it starts from. *)
Lemma binary_round_aux_cases (s : bool) (m e : Z) (l : location) :
  0 <= m ->
  binary_round_aux prec emax s m e l = S754_zero s \/
  binary_round_aux prec emax s m e l = S754_infinity s \/
  exists m' e', binary_round_aux prec emax s m e l = S754_finite s m' e' /\ e <= e'.
Proof.
  intros Hm. unfold binary_round_aux.
  pose proof (shr_fexp_nonneg m e l Hm) as [H1 H2].
  destruct (shr_fexp prec emax m e l) as [mrs' e']. simpl in H1, H2.
  pose proof (shr_fexp_nonneg _ e' loc_Exact
                (round_nearest_even_nonneg _ (loc_of_shr_record mrs') H1)) as [H3 H4].
  destruct (shr_fexp prec emax _ e' loc_Exact) as [mrs'' e'']. simpl in H3, H4.
  destruct (shr_m mrs'') as [|q|q]; [now left| |lia].
  destruct (e'' <=? emax - prec); [|now right; left].
  right; right. exists q, e''. split; [reflexivity|lia].
Qed.

(** The number for a natural number is an integer, or Infinity. *)
Lemma of_decimal_integral (n : N) :
  of_decimal false n 0 = pos_infinity \/
  exists k, 0 <= k /\ to_Z (of_decimal false n 0) = Some k.
Proof.
  destruct n as [|p]; [right; exists 0; split; [lia|reflexivity]|].
  destruct (Z_le_gt_dec (Zpos (digits2_pos p)) 53) as [Hd|Hd].
  - right. exists (Zpos p). split; [lia|].
    rewrite of_decimal_int.
    destruct (binary_round_small false p Hd) as (m & e & -> & He & Hm).
    now rewrite (to_Z_scaled false m p e).
  - rewrite of_decimal_int. unfold binary_round, shl_align.
    assert (Hf : fexp prec emax (Zpos (digits2_pos p) + 0) = Zpos (digits2_pos p) - 53).
    { unfold fexp, emin, prec, emax. lia. }
    rewrite Hf.
    destruct (Zpos (digits2_pos p) - 53 - 0) as [|k|k] eqn:Hk; try lia.
    destruct (binary_round_aux_cases false (Zpos p) 0 loc_Exact) as [H|[H|(m' & e' & H & He)]];
      [lia| | |]; rewrite H.
    + right. exists 0. split; [lia|reflexivity].
    + now left.
    + right. exists (Zpos m' * 2 ^ e'). split.
      * apply Z.mul_nonneg_nonneg; [lia|]. apply Z.pow_nonneg; lia.
      * unfold to_Z. apply Z.leb_le in He. now rewrite He.
Qed.

(** A product with a finite number is NaN only when the other factor is. *)
Lemma mul_finite_not_nan (x : Number) (s : bool) (m : positive) (e : Z) :
  x <> nan -> mul x (S754_finite s m e) <> nan.
Proof.
  intros Hx. destruct x as [sx|sx| |sx mx ex]; try discriminate;
    [contradiction|].
  unfold mul, SFmul.
  destruct (binary_round_aux_cases (xorb sx s) (Zpos (mx * m)) (ex + e) loc_Exact)
    as [H|[H|(m' & e' & H & _)]]; [lia| | |]; rewrite H; discriminate.
Qed.

Lemma number_eq_refl (x : Number) : x <> nan -> number_eq x x = true.
Proof.
  intros Hx. destruct x as [s|s| |s m e]; try reflexivity;
    [destruct s; reflexivity|contradiction|].
  unfold number_eq, SFeqb, SFcompare.
  rewrite Z.compare_refl, Pos.compare_cont_refl. destruct s; reflexivity.
Qed.

(** The model agrees with the binary64 arithmetic of the machine, through
    the primitive floating-point numbers of the kernel. *)
Module Hardware.
Import PrimFloat.

Example seven_tenths :
  FloatOps.Prim2SF 0x1.6666666666666p-1%float = of_decimal false 7 (-1).
Proof. vm_compute. reflexivity. Qed.

Example access_amount :
  FloatOps.Prim2SF (10000 * 12 * 3 * 0x1.6666666666666p-1)%float
  = JS.mul (JS.mul (JS.mul (JS.of_Z 10000) (JS.of_Z 12)) (JS.of_Z 3))
      (of_decimal false 7 (-1)).
Proof. vm_compute. reflexivity. Qed.

End Hardware.

(** The texts of some numbers, as JavaScript prints them. *)
Example toString_examples :
  toString (of_decimal false 123456 (-3)) = str "123.456" /\
  toString (of_decimal false 1 21) = str "1e+21" /\
  toString (of_decimal false 1 (-7)) = str "1e-7" /\
  toString (of_Z (2 ^ 70)) = str "1.1805916207174113e+21".
Proof. vm_compute. repeat split. Qed.

Example toFixed_examples :
  toFixed (of_Z 3) 1 = str "3.0" /\
  toFixed (of_decimal false 375 (-2)) 1 = str "3.8" /\
  toFixed (of_decimal false 145 (-2)) 1 = str "1.4" /\
  toFixed (of_decimal true 1 (-2)) 1 = str "-0.0".
Proof. vm_compute. repeat split. Qed.

Example format_examples :
  toLocaleString (of_Z 987654321987654321) = str "987,654,321,987,654,300" /\
  toLocaleString (of_decimal false 12345678 (-4)) = str "1,234.568" /\
  formatCurrency (of_decimal false 25 (-1)) = str "$3" /\
  formatCurrency (of_decimal true 12345 (-1)) = str "-$1,235" /\
  formatCurrency pos_infinity = 36%N :: [8734%N].
Proof. vm_compute. repeat split. Qed.

Example parseFloat_examples :
  parseFloat (str " 3.5e2x") = of_Z 350 /\
  parseFloat (str ".") = nan /\
  parseFloat (str "1e") = of_Z 1 /\
  parseFloat (str "-Infinity") = S754_infinity true /\
  parseFloat (str "-0") = S754_zero true.
Proof. vm_compute. repeat split. Qed.

(** ** Decimal digits and grouping *)

Section Digits.
Local Open Scope N_scope.

Lemma digits_value_snoc (ds : jsstring) (c : code_unit) :
  digits_value (ds ++ [c]) = digits_value ds * 10 + digit_value c.
Proof. unfold digits_value. now rewrite fold_left_app. Qed.

Lemma to_digits_aux_acc (fuel : nat) (n : N) (acc : jsstring) :
  to_digits_aux fuel n acc = to_digits_aux fuel n [] ++ acc.
Proof.
  revert n acc. induction fuel as [|f IH]; intros n acc; simpl; [reflexivity|].
  destruct (n <? 10); [reflexivity|].
  rewrite (IH _ (_ :: acc)), (IH _ [_]). now rewrite <- app_assoc.
Qed.

Lemma digit_value_of_digit (d : N) : d < 10 -> digit_value (48 + d) = d.
Proof. unfold digit_value. lia. Qed.

Lemma to_digits_aux_value (fuel : nat) (n : N) :
  n < 10 * 10 ^ N.of_nat fuel -> digits_value (to_digits_aux fuel n []) = n.
Proof.
  revert n. induction fuel as [|f IH]; intros n Hn.
  - simpl in *. unfold digits_value. simpl.
    rewrite digit_value_of_digit by (apply N.mod_lt; lia).
    rewrite N.mod_small; lia.
  - simpl to_digits_aux. destruct (N.ltb_spec n 10) as [Hlt|Hge].
    + unfold digits_value. simpl.
      rewrite digit_value_of_digit by (apply N.mod_lt; lia).
      rewrite N.mod_small; lia.
    + rewrite to_digits_aux_acc, digits_value_snoc, IH.
      * rewrite digit_value_of_digit by (apply N.mod_lt; lia).
        pose proof (N.div_mod n 10). lia.
      * rewrite Nat2N.inj_succ, N.pow_succ_r' in Hn.
        apply N.Div0.div_lt_upper_bound. lia.
Qed.

Lemma to_digits_fuel (n : N) : n < 10 * 10 ^ N.of_nat (N.to_nat (N.log2 n)).
Proof.
  rewrite N2Nat.id. destruct n as [|p]; [simpl; lia|].
  pose proof (N.log2_spec (Npos p) ltac:(lia)) as [_ H].
  rewrite N.pow_succ_r' in H.
  assert (2 ^ N.log2 (N.pos p) <= 10 ^ N.log2 (N.pos p))
    by (apply N.pow_le_mono_l; lia).
  lia.
Qed.

Lemma to_digits_value (n : N) : digits_value (to_digits n) = n.
Proof. apply to_digits_aux_value, to_digits_fuel. Qed.

Lemma to_digits_aux_digits (fuel : nat) (n : N) (acc : jsstring) :
  Forall (fun c => is_digit c = true) acc ->
  Forall (fun c => is_digit c = true) (to_digits_aux fuel n acc).
Proof.
  assert (Hd : forall m, is_digit (48 + m mod 10) = true).
  { intros m. pose proof (N.mod_lt m 10 ltac:(lia)). unfold is_digit.
    apply andb_true_iff. generalize dependent (m mod 10). intros d Hd.
    split; apply N.leb_le; lia. }
  revert n acc. induction fuel as [|f IH]; intros n acc Hacc; simpl.
  - constructor; auto.
  - destruct (n <? 10); [constructor; auto|]. apply IH. constructor; auto.
Qed.

Lemma to_digits_digits (n : N) : Forall (fun c => is_digit c = true) (to_digits n).
Proof. apply to_digits_aux_digits. constructor. Qed.

Lemma to_digits_nonempty (n : N) : to_digits n <> [].
Proof.
  unfold to_digits. rewrite to_digits_aux_acc.
  generalize (N.to_nat (N.log2 n)). intros f.
  destruct f; simpl; [discriminate|].
  destruct (n <? 10); [discriminate|].
  rewrite to_digits_aux_acc. intros H. apply app_eq_nil in H as [H _].
  apply app_eq_nil in H as [_ H]. discriminate.
Qed.

Lemma strip_non_digits_digits (s : jsstring) :
  Forall (fun c => is_digit c = true) (strip_non_digits s).
Proof.
  apply List.Forall_forall. intros c Hc. now apply List.filter_In in Hc.
Qed.

Lemma strip_digits_id (ds : jsstring) :
  Forall (fun c => is_digit c = true) ds -> strip_non_digits ds = ds.
Proof.
  induction 1 as [|c r Hc _ IH]; [reflexivity|].
  unfold strip_non_digits in *. simpl. now rewrite Hc, IH.
Qed.

Lemma group_rev_strip (ds : jsstring) (k : nat) :
  Forall (fun c => is_digit c = true) ds ->
  strip_non_digits (group_rev ds k) = ds.
Proof.
  intros H. revert k. induction H as [|c r Hc Hr IH]; intros k; [reflexivity|].
  unfold strip_non_digits in *. simpl. destruct r as [|c' r'].
  - simpl. now rewrite Hc.
  - destruct (k =? 2)%nat; cbn [List.filter]; rewrite Hc.
    + change (is_digit 44) with false. cbv iota. now rewrite IH.
    + now rewrite IH.
Qed.

Lemma group3_strip (ds : jsstring) :
  Forall (fun c => is_digit c = true) ds -> strip_non_digits (group3 ds) = ds.
Proof.
  intros H. unfold group3, strip_non_digits.
  rewrite List.filter_rev. fold (strip_non_digits (group_rev (rev ds) 0)).
  rewrite group_rev_strip, rev_involutive; [reflexivity|].
  now apply List.Forall_rev.
Qed.

End Digits.

(** ** Parsing and formatting *)

Ltac decide_comparisons :=
  repeat match goal with
    | |- context [(?a <=? ?b)%N] => destruct (N.leb_spec a b); try lia
    | |- context [(?a =? ?b)%N] => destruct (N.eqb_spec a b); try lia
    end.

Lemma digit_not_white_space (c : code_unit) :
  is_digit c = true -> is_white_space c = false.
Proof.
  unfold is_digit, is_white_space. intros H.
  apply andb_true_iff in H as [H1 H2]. apply N.leb_le in H1, H2.
  decide_comparisons; reflexivity.
Qed.

Lemma take_while_digits (ds : jsstring) :
  Forall (fun c => is_digit c = true) ds -> take_while is_digit ds = ds.
Proof. induction 1 as [|c r Hc _ IH]; simpl; [|rewrite Hc, IH]; reflexivity. Qed.

Lemma parseInt10_digits (ds : jsstring) :
  Forall (fun c => is_digit c = true) ds ->
  parseInt10 ds = match ds with
                  | [] => nan
                  | _ => of_decimal false (digits_value ds) 0
                  end.
Proof.
  intros H. destruct ds as [|c r]; [reflexivity|].
  pose proof (Forall_inv H) as Hc. unfold parseInt10.
  cbn [drop_while]. rewrite (digit_not_white_space c Hc).
  unfold read_sign. unfold is_digit in Hc.
  apply andb_true_iff in Hc as [H1 _]. apply N.leb_le in H1.
  destruct (N.eqb_spec c 45); [lia|]. destruct (N.eqb_spec c 43); [lia|].
  now rewrite take_while_digits.
Qed.

Lemma of_decimal_int_shape (n : N) :
  of_decimal false n 0 = pos_zero \/ of_decimal false n 0 = pos_infinity \/
  exists m e, of_decimal false n 0 = S754_finite false m e.
Proof.
  destruct n as [|p]; [now left|]. rewrite of_decimal_int.
  unfold binary_round. destruct (shl_align _ _ _) as [mz ez].
  destruct (binary_round_aux_cases false (Zpos mz) ez loc_Exact)
    as [H|[H|(m & e & H & _)]]; [lia| | |]; rewrite H; eauto.
Qed.

(** [parseFormattedNumber] gives the binary64 number nearest to the integer
    the digits denote. *)
Lemma parseFormattedNumber_eq (text : jsstring) :
  parseFormattedNumber text = of_decimal false (spec_parseInteger text) 0.
Proof.
  unfold parseFormattedNumber, spec_parseInteger.
  rewrite parseInt10_digits by apply strip_non_digits_digits.
  destruct (strip_non_digits text) as [|c r] eqn:E; [reflexivity|].
  destruct (of_decimal_int_shape (digits_value (c :: r)))
    as [H|[H|(m & e & H)]]; rewrite H; reflexivity.
Qed.

Lemma round_decimal_integer (n : N) (f : nat) :
  round_decimal n 0 f = (n * Z.to_N (10 ^ Z.of_nat f))%N.
Proof.
  unfold round_decimal. destruct (Z.leb_spec 0 (0 + Z.of_nat f)); [reflexivity|lia].
Qed.

Lemma toLocaleString_exact (n : N) :
  Z.of_N n <= 2 ^ 53 ->
  toLocaleString (of_decimal false n 0) = group3 (to_digits n).
Proof.
  intros Hn. pose proof (of_decimal_exact n Hn) as HZ.
  destruct (of_decimal_int_shape n) as [H|[H|(m & e & H)]]; rewrite H in *.
  - injection HZ as HZ. assert (n = 0%N) by lia. subst n. reflexivity.
  - discriminate.
  - unfold toLocaleString, format_number, decimal_expansion. rewrite HZ.
    apply Z.leb_le in Hn. rewrite Hn, N2Z.id.
    rewrite round_decimal_integer. change (Z.to_N (10 ^ Z.of_nat 3)) with 1000%N.
    rewrite N.Div0.mod_mul, N.div_mul by lia. simpl. now rewrite app_nil_r.
Qed.

Lemma formatNumberWithCommas_exact (text : jsstring) :
  Z.of_N (spec_parseInteger text) <= 2 ^ 53 ->
  formatNumberWithCommas text = spec_formatWithGroupingSeparators text.
Proof.
  unfold formatNumberWithCommas, spec_formatWithGroupingSeparators, spec_parseInteger.
  intros Hn. destruct (strip_non_digits text) as [|c r] eqn:E; [reflexivity|].
  rewrite parseInt10_digits by (rewrite <- E; apply strip_non_digits_digits).
  now apply toLocaleString_exact.
Qed.

(** ** The figures *)

(** Each figure is the product the script writes, also under the
    comparison [==]: with a trail that is not NaN and a finite multiple no
    figure is NaN. *)
Lemma figures_comparable (m k : Number) (p : jsstring) (s : bool)
    (mk : positive) (ek : Z) :
  m <> nan -> k = S754_finite s mk ek ->
  let f := figures m k p in
  number_eq (annualTrail f) (mul m (of_Z 12)) = true /\
  number_eq (bookValue f) (mul (mul m (of_Z 12)) k) = true /\
  number_eq (accessAmount f)
    (mul (if isAcquisition f then of_decimal false 7 (-1) else of_decimal false 5 (-1))
       (bookValue f)) = true.
Proof.
  intros Hm -> f.
  assert (Ha : annualTrail f <> nan) by now apply (mul_finite_not_nan m).
  assert (Hb : bookValue f <> nan) by now apply mul_finite_not_nan.
  split; [now apply number_eq_refl|]. split; [now apply number_eq_refl|].
  assert (E7 : of_decimal false 7 (-1) = S754_finite false 6305039478318694 (-53))
    by (vm_compute; reflexivity).
  assert (E5 : of_decimal false 5 (-1) = S754_finite false 4503599627370496 (-53))
    by (vm_compute; reflexivity).
  revert Hb. unfold f, figures. cbn [accessAmount isAcquisition bookValue].
  intros Hb. rewrite E7, E5.
  destruct (strict_eq p (str "acquisition")); rewrite (mul_comm (S754_finite _ _ _));
    apply number_eq_refl; now apply mul_finite_not_nan.
Qed.

(** C8 as stated fails for the acquisition purpose: 0.7 is not a binary64
    number, and the product of 360000 and the nearest one rounds to the
    binary64 number just below 252000. *)
Lemma scenario_not_252000 :
  accessAmount (figures (of_Z 10000) (of_decimal false 30 (-1)) (str "acquisition"))
  <> of_Z 252000.
Proof. vm_compute. discriminate. Qed.

(** C8 (as amended).  For monthlyTrail = 10000 and multiple = 3.0 the
    computation gives annualTrail = 120000 and bookValue = 360000; for the
    acquisition purpose accessAmount = 251999.99999999997, the binary64
    number next below 252000, which is displayed as $252,000, with
    accessPercent "70%"; for any other purpose accessAmount = 180000 with
    accessPercent "50%". *)
Theorem scenario_10000_3 :
  let m := of_Z 10000 in
  let k := of_decimal false 30 (-1) in
  (forall p, annualTrail (figures m k p) = of_Z 120000 /\
             bookValue (figures m k p) = of_Z 360000) /\
  (let f := figures m k (str "acquisition") in
   accessAmount f = SFpred prec emax (of_Z 252000) /\
   toString (accessAmount f) = str "251999.99999999997" /\
   formatCurrency (accessAmount f) = str "$252,000" /\
   accessPercent f = str "70%") /\
  (forall p, p <> str "acquisition" ->
             accessAmount (figures m k p) = of_Z 180000 /\
             accessPercent (figures m k p) = str "50%").
Proof.
  cbv zeta. split; [|split].
  - intros p. unfold figures. cbn [annualTrail bookValue]. split; vm_compute; reflexivity.
  - vm_compute. repeat split.
  - intros p Hp. unfold figures. cbn [accessAmount accessPercent].
    unfold strict_eq. rewrite bool_decide_eq_false_2 by assumption.
    split; vm_compute; reflexivity.
Qed.

(** The scenario for the purpose "working". *)
Lemma scenario_10000_3_working_capital :
  accessAmount (figures (of_Z 10000) (of_decimal false 30 (-1)) (str "working"))
  = of_Z 180000.
Proof.
  pose proof scenario_10000_3 as H. cbv zeta in H. destruct H as (_ & _ & H).
  destruct (H (str "working")) as [Ha _]; [discriminate|exact Ha].
Defined.

(** ** The multiple *)

(** C2 as stated fails on the text "-2": it parses to a truthy number, which
    is used as it is. *)
Lemma negative_multiple :
  read_multiple (str "-2") = SFopp (of_Z 2) /\
  is_positive (read_multiple (str "-2")) = false.
Proof. vm_compute. split; reflexivity. Qed.

(** C2 (as amended).  For every text of the multiple field: when the text
    does not parse (NaN) or parses to a falsy number (0 or -0), the
    multiple used is exactly 3; otherwise it is the parsed number, as it
    is.  The multiple used is strictly positive exactly when the parsed
    number is not negative: a negative number is used unchanged. *)
Theorem read_multiple_spec (text : jsstring) :
  let v := parseFloat text in
  (truthy v = false -> read_multiple text = of_Z 3) /\
  (truthy v = true -> read_multiple text = v) /\
  is_positive (read_multiple text) = negb (is_negative v).
Proof.
  cbv zeta. unfold read_multiple, or_else.
  destruct (parseFloat text) as [s|s| |s m e]; simpl; repeat split;
    try discriminate; try reflexivity; destruct s; reflexivity.
Qed.

(** A text that does not parse gives 3; the text "2.5" gives 2.5. *)
Lemma read_multiple_default :
  read_multiple (str "abc") = of_Z 3 /\ read_multiple (str "2.5") = of_decimal false 25 (-1).
Proof.
  pose proof (read_multiple_spec (str "abc")) as H1.
  pose proof (read_multiple_spec (str "2.5")) as H2.
  cbv zeta in H1, H2. destruct H1 as (H1 & _ & _). destruct H2 as (_ & H2 & _).
  split; [apply H1|rewrite H2]; vm_compute; reflexivity.
Defined.

(** ** The input sanitizer *)

(** C5 as stated fails on a string of 309 digits 9: its value is beyond the
    binary64 range and [parseInt] gives Infinity, which is no integer.  On
    9007199254740993 the result is an integer, but not the one written. *)
Lemma parseFormattedNumber_overflow :
  parseFormattedNumber (repeat 57%N 309) = pos_infinity /\
  to_Z (parseFormattedNumber (repeat 57%N 309)) = None /\
  to_Z (parseFormattedNumber (str "9007199254740993")) = Some 9007199254740992.
Proof. vm_compute. repeat split. Qed.

(** C5 (as amended).  For every input string, [parseFormattedNumber]
    strips the characters that are not digits and parses the remainder to a
    binary64 number: [0] when the input is empty or has no digit, exactly
    the integer the digits denote when that is at most [2^53], and in every
    case a non-negative integer or Infinity.  In particular
    parseFormattedNumber("") = 0 and parseFormattedNumber("1,234abc") =
    1234. *)
Theorem parseFormattedNumber_spec (text : jsstring) :
  (strip_non_digits text = [] -> parseFormattedNumber text = pos_zero) /\
  (Z.of_N (spec_parseInteger text) <= 2 ^ 53 ->
   to_Z (parseFormattedNumber text) = Some (Z.of_N (spec_parseInteger text))) /\
  (parseFormattedNumber text = pos_infinity \/
   exists k, 0 <= k /\ to_Z (parseFormattedNumber text) = Some k) /\
  parseFormattedNumber (str "") = pos_zero /\
  parseFormattedNumber (str "1,234abc") = of_Z 1234.
Proof.
  rewrite parseFormattedNumber_eq. repeat split.
  - unfold spec_parseInteger. now intros ->.
  - apply of_decimal_exact.
  - apply of_decimal_integral.
Qed.

(** The text "12,345" parses to 12345. *)
Lemma parseFormattedNumber_12345 :
  to_Z (parseFormattedNumber (str "12,345")) = Some 12345.
Proof.
  destruct (parseFormattedNumber_spec (str "12,345")) as (_ & H & _).
  apply H. vm_compute. discriminate.
Defined.

(** C6 as stated fails on 9007199254740993: the integer rendered is the
    binary64 number [parseInt] rounds it to. *)
Lemma formatNumberWithCommas_rounds :
  formatNumberWithCommas (str "9007199254740993") = str "9,007,199,254,740,992" /\
  spec_formatWithGroupingSeparators (str "9007199254740993") = str "9,007,199,254,740,993".
Proof. vm_compute. split; reflexivity. Qed.

(** C6 (as amended).  For every input string whose digits denote an integer
    of at most [2^53], [formatNumberWithCommas] strips every character that
    is not a decimal digit and renders the resulting integer with thousands
    separators, and returns the empty string when no digit is left; in
    particular formatNumberWithCommas("1234567") = "1,234,567". *)
Theorem formatNumberWithCommas_spec (text : jsstring) :
  Z.of_N (spec_parseInteger text) <= 2 ^ 53 ->
  formatNumberWithCommas text = spec_formatWithGroupingSeparators text /\
  formatNumberWithCommas (str "1234567") = str "1,234,567".
Proof.
  intros H. split; [now apply formatNumberWithCommas_exact|].
  vm_compute. reflexivity.
Qed.

(** The digits of "$ 12a3456" are grouped as 123,456. *)
Lemma formatNumberWithCommas_mixed :
  formatNumberWithCommas (str "$ 12a3456") = str "123,456".
Proof.
  destruct (formatNumberWithCommas_spec (str "$ 12a3456")) as [H _].
  - vm_compute. discriminate.
  - rewrite H. vm_compute. reflexivity.
Defined.

(** C10 (as amended).  For every non-empty string [d] of decimal digits
    whose integer value is at most [2^53], parsing the grouped rendering of
    [d] recovers the integer value of [d], and the same number as parsing
    [d] itself.  Above [2^53] the value of [d] may not be a binary64
    number, and [parseInt] rounds it. *)
Theorem format_parse_roundtrip (d : jsstring) :
  d <> [] -> Forall (fun c => is_digit c = true) d ->
  Z.of_N (digits_value d) <= 2 ^ 53 ->
  to_Z (parseFormattedNumber (formatNumberWithCommas d)) = Some (Z.of_N (digits_value d)) /\
  parseFormattedNumber (formatNumberWithCommas d) = parseFormattedNumber d.
Proof.
  intros Hne Hd Hn.
  assert (E : spec_parseInteger d = digits_value d)
    by (unfold spec_parseInteger; now rewrite strip_digits_id).
  assert (E' : spec_parseInteger (formatNumberWithCommas d) = digits_value d).
  { rewrite formatNumberWithCommas_exact by now rewrite E.
    unfold spec_formatWithGroupingSeparators, spec_parseInteger.
    rewrite (strip_digits_id d) by assumption.
    destruct d as [|c r]; [contradiction|].
    rewrite group3_strip by apply to_digits_digits. apply to_digits_value. }
  rewrite !parseFormattedNumber_eq, E, E'. split; [|reflexivity].
  now apply of_decimal_exact.
Qed.

(** The round trip of 1234567. *)
Lemma format_parse_roundtrip_1234567 :
  to_Z (parseFormattedNumber (formatNumberWithCommas (str "1234567")))
  = Some 1234567.
Proof.
  apply (format_parse_roundtrip (str "1234567")).
  - discriminate.
  - repeat constructor.
  - vm_compute. discriminate.
Defined.

(** C10 as stated fails at the 16-digit string 9007199254740993, that is
    [2^53 + 1]: [parseInt] rounds it to [2^53], which is what is rendered
    and parsed back. *)
Lemma roundtrip_loses_precision :
  to_Z (parseFormattedNumber (formatNumberWithCommas (str "9007199254740993")))
  <> Some (Z.of_N (digits_value (str "9007199254740993"))).
Proof. vm_compute. discriminate. Qed.

(** ** The page *)

Lemma bind_reads {A B} (f : Page -> A) (k : A -> M B) (p : Page) :
  (x <- reads f ;; k x) p = k (f p) p.
Proof. reflexivity. Qed.

Lemma bind_getElementById {B} (id : string) (k : option Element -> M B) (p : Page) :
  (el <- getElementById id ;; k el) p = k (elements p !! id) p.
Proof. reflexivity. Qed.

Lemma bind_get_value {B} (e : Element) (k : jsstring -> M B) (p : Page) :
  (v <- get_value (Some e) ;; k v) p = k (value e) p.
Proof. reflexivity. Qed.

Lemma bind_get_value_null {B} (k : jsstring -> M B) (p : Page) :
  (v <- get_value None ;; k v) p = (p, Throw TypeError).
Proof. reflexivity. Qed.

Lemma bind_set_textContent {B} (id : string) (text : jsstring) (e : Element)
    (k : M B) (p : Page) :
  elements p !! id = Some e ->
  (set_textContent id text ;;; k) p = k (with_element id (write_text text e) p).
Proof. intros H. unfold set_textContent, bind, getElementById, reads. now rewrite H. Qed.

Lemma bind_set_textContent_null {B} (id : string) (text : jsstring)
    (k : M B) (p : Page) :
  elements p !! id = None ->
  (set_textContent id text ;;; k) p = (p, Throw TypeError).
Proof. intros H. unfold set_textContent, bind, getElementById, reads. now rewrite H. Qed.

Lemma elements_with_element (id : string) (e : Element) (p : Page) :
  elements (with_element id e p) = <[id := e]> (elements p).
Proof. reflexivity. Qed.

Lemma getSelectedPurpose_unchecked (p : Page) :
  Forall (fun r => checked r = false) (loanPurpose p) ->
  getSelectedPurpose p = str "acquisition".
Proof.
  intros H. unfold getSelectedPurpose.
  assert (E : List.find checked (loanPurpose p) = None).
  { induction H as [|r l Hr _ IH]; simpl; [reflexivity|]. now rewrite Hr. }
  now rewrite E.
Qed.

Lemma updateComparisonChart_returns (b a : Number) (acq : bool) (p : Page) :
  exists p',
    updateComparisonChart b a acq p = (p', Return tt) /\
    elements p' = elements p /\ loanPurpose p' = loanPurpose p /\
    (elements p !! "comparisonChart" = None -> p' = p) /\
    (is_Some (elements p !! "comparisonChart") ->
     comparisonChart p' =
       Some {| labels := [str "Book Value";
                          if acq then str "Acquisition (70%)"
                          else str "Working Capital (50%)"];
               data := [b; a];
               backgroundColor := [str "#f26739";
                                   if acq then str "#2e7d32" else str "#1976d2"] |}).
Proof.
  unfold updateComparisonChart. rewrite bind_getElementById.
  destruct (elements p !! "comparisonChart") as [c|] eqn:E.
  - eexists. split; [reflexivity|]. split; [reflexivity|]. split; [reflexivity|].
    split; [discriminate|reflexivity].
  - exists p. split; [reflexivity|]. split; [reflexivity|]. split; [reflexivity|].
    split; [reflexivity|]. intros [? ?]; discriminate.
Qed.

(** A lookup in a page written to is a lookup in the page before, for any
    other id. *)
Ltac lookup_through :=
  repeat (rewrite elements_with_element);
  repeat (rewrite lookup_insert_ne by discriminate).

Ltac lookup_through_in H :=
  repeat (rewrite elements_with_element in H);
  repeat (rewrite lookup_insert_ne in H by discriminate).

(** On a page with its inputs and targets [calculate] returns normally,
    having written every text of [displayed]. *)
Lemma calculate_complete (p : Page) (trail multiple : Element) :
  elements p !! "monthlyTrail" = Some trail ->
  elements p !! "bookMultiple" = Some multiple ->
  Forall (fun id => is_Some (elements p !! id)) display_targets ->
  exists p',
    calculate p = (p', Return tt) /\
    Forall (fun d => text_of d.1 p' = Some d.2)
      (displayed (value trail) (value multiple) (getSelectedPurpose p)) /\
    loanPurpose p' = loanPurpose p /\
    (forall id, id ∉ display_targets -> elements p' !! id = elements p !! id) /\
    (elements p !! "comparisonChart" = None ->
     comparisonChart p' = comparisonChart p /\ live_charts p' = live_charts p).
Proof.
  intros Ht Hm Hd. unfold display_targets in Hd.
  repeat (apply Forall_cons_1 in Hd as [[? ?] Hd]).
  unfold calculate.
  rewrite bind_getElementById, Ht, bind_get_value.
  rewrite bind_getElementById, Hm, bind_get_value.
  rewrite bind_reads.
  set (m := parseFormattedNumber (value trail)).
  set (k := read_multiple (value multiple)).
  set (f := figures m k (getSelectedPurpose p)).
  do 8 (erewrite bind_set_textContent by (lookup_through; eassumption)).
  match goal with |- context [updateComparisonChart ?b ?a ?i ?q] =>
    destruct (updateComparisonChart_returns b a i q) as (p' & -> & He & Hl & Hnone & _)
  end.
  exists p'. split; [reflexivity|]. split; [|split; [exact Hl|split]].
  - unfold displayed. fold m k f.
    repeat constructor; unfold text_of; cbn [fst snd]; rewrite He;
      lookup_through; rewrite lookup_insert_eq; reflexivity.
  - intros id Hid. unfold display_targets in Hid.
    rewrite !not_elem_of_cons in Hid. rewrite He.
    repeat (rewrite elements_with_element).
    rewrite !lookup_insert_ne by (intros E; symmetry in E; intuition). reflexivity.
  - intros Hc. rewrite Hnone by (lookup_through; exact Hc). split; reflexivity.
Qed.

(** One update of a text: it goes through when the target is there, and
    throws otherwise. *)
Ltac write_step H :=
  match goal with
  | |- context [bind (set_textContent ?id ?t) ?k ?p] =>
      let e := fresh "e" in
      let E := fresh "E" in
      destruct (elements p !! id) as [e|] eqn:E;
      [ first [ exfalso; lookup_through_in E; congruence
              | erewrite bind_set_textContent by exact E ]
      | rewrite bind_set_textContent_null by exact E;
        eexists; repeat split ]
  end.

(** A display target that is missing makes [calculate] throw, before the
    chart is touched. *)
Lemma calculate_throws (p : Page) (id : string) :
  has_inputs p -> id ∈ display_targets -> elements p !! id = None ->
  exists p',
    calculate p = (p', Throw TypeError) /\
    comparisonChart p' = comparisonChart p /\ live_charts p' = live_charts p.
Proof.
  intros [[trail Ht] [multiple Hm]] Hin Hnone. unfold display_targets in Hin.
  unfold calculate.
  rewrite bind_getElementById, Ht, bind_get_value.
  rewrite bind_getElementById, Hm, bind_get_value.
  rewrite bind_reads.
  set (m := parseFormattedNumber (value trail)).
  set (k := read_multiple (value multiple)).
  set (f := figures m k (getSelectedPurpose p)).
  repeat (apply elem_of_cons in Hin as [->|Hin]); [..|inversion Hin];
    repeat write_step Hnone.
Qed.

(** Without the canvas the chart is skipped: the recomputation returns
    normally, every display target has its text and no chart is built. *)
Lemma calculate_without_canvas (p : Page) :
  complete p -> elements p !! "comparisonChart" = None ->
  exists p',
    calculate p = (p', Return tt) /\
    Forall (fun id => is_Some (text_of id p')) display_targets /\
    comparisonChart p' = comparisonChart p /\ live_charts p' = live_charts p.
Proof.
  intros [[[trail Ht] [multiple Hm]] Hd] Hc.
  destruct (calculate_complete p trail multiple Ht Hm Hd)
    as (p' & Hcalc & Htexts & _ & _ & Hchart).
  exists p'. split; [exact Hcalc|]. split; [|now apply Hchart].
  unfold displayed in Htexts. unfold display_targets.
  repeat (apply Forall_cons_1 in Htexts as [? Htexts]).
  cbn [fst snd] in *. repeat constructor; eexists; eassumption.
Qed.

Lemma sample_page_complete : complete sample_page.
Proof.
  split; [split|unfold display_targets; repeat constructor];
    vm_compute; eexists; reflexivity.
Qed.

(** C3 (not what the code does).  On the sample page without the element
    multipleDisplay, every other target and the canvas being there,
    [calculate] does not skip the step and go on: it throws a TypeError at
    this first update, no target receives its text and the chart is not
    built.  [calculate_throws] says so for any page and target, and
    [calculate_without_canvas] that only the canvas may be missing. *)
Theorem calculate_missing_target_throws :
  let p := without "multipleDisplay" sample_page in
  snd (calculate p) = Throw TypeError /\
  Forall (fun id => text_of id (fst (calculate p)) = text_of id p) display_targets /\
  comparisonChart (fst (calculate p)) = None /\
  Forall (fun id => is_Some (elements p !! id))
    ["displayMonthlyTrail"; "annualTrail"; "displayMultiple"; "bookValue";
     "accessLabel"; "accessAmount"; "accessPercent"; "comparisonChart"].
Proof.
  cbv zeta. split; [vm_compute; reflexivity|]. split; [|split].
  - unfold display_targets. repeat constructor; vm_compute; reflexivity.
  - vm_compute. reflexivity.
  - repeat constructor; vm_compute; eexists; reflexivity.
Qed.

(** C9.  When no input of the purpose group is checked, the purpose is
    "acquisition": on a page that has its inputs and display targets the
    recomputation returns normally and shows the label "Acquisition
    Finance", "70% of book value" and 0.7 times the book value. *)
Theorem default_purpose_is_acquisition (p : Page) :
  Forall (fun r => checked r = false) (loanPurpose p) ->
  complete p ->
  getSelectedPurpose p = str "acquisition" /\
  exists p' trail multiple,
    elements p !! "monthlyTrail" = Some trail /\
    elements p !! "bookMultiple" = Some multiple /\
    calculate p = (p', Return tt) /\
    text_of "accessLabel" p' = Some (str "Acquisition Finance") /\
    text_of "accessPercent" p' = Some (str "70% of book value") /\
    text_of "accessAmount" p' =
      Some (formatCurrency
              (mul (mul (mul (parseFormattedNumber (value trail)) (of_Z 12))
                      (read_multiple (value multiple)))
                 (of_decimal false 7 (-1)))).
Proof.
  intros Hun [[[trail Ht] [multiple Hm]] Hd].
  pose proof (getSelectedPurpose_unchecked p Hun) as Hp.
  split; [exact Hp|].
  destruct (calculate_complete p trail multiple Ht Hm Hd) as (p' & Hc & Htexts & _).
  exists p', trail, multiple. rewrite Hp in Htexts.
  repeat (split; [assumption|]).
  unfold displayed in Htexts.
  repeat (apply Forall_cons_1 in Htexts as [? Htexts]).
  cbn [fst snd] in *. repeat split; assumption.
Qed.

(** The sample page, where no purpose is checked. *)
Lemma default_purpose_on_load :
  getSelectedPurpose sample_page = str "acquisition" /\
  snd (calculate sample_page) = Return tt.
Proof.
  destruct (default_purpose_is_acquisition sample_page) as (Hp & p' & t & m & _ & _ & Hc & _).
  - repeat constructor.
  - exact sample_page_complete.
  - split; [exact Hp|]. now rewrite Hc.
Defined.

(** ** Debouncing *)

Section DebounceFacts.
Context {A S : Type}.
Variable func : A -> S -> S.
Variable delay : N.

(** With [single_flight] no timer is pending, or exactly the one
    [debounceTimer] names. *)
Lemma single_flight_shape (l : Loop A S) :
  single_flight l ->
  pending l = ∅ \/
  exists i x, pending l = {[i := x]} /\ debounceTimer l = Some i.
Proof.
  intros H. destruct (debounceTimer l) as [i|] eqn:E.
  - destruct (pending l !! i) as [x|] eqn:Ei.
    + right. exists i, x. split; [|reflexivity].
      apply map_eq. intros j. destruct (decide (i = j)) as [<-|Hne].
      * now rewrite lookup_singleton_eq.
      * rewrite lookup_singleton_ne by assumption.
        destruct (pending l !! j) as [y|] eqn:Ej; [|reflexivity].
        apply H in Ej. rewrite E in Ej. injection Ej as ->. contradiction.
    + left. apply map_empty. intros j.
      destruct (pending l !! j) as [y|] eqn:Ej; [|reflexivity].
      pose proof (H _ _ Ej) as Hj. rewrite E in Hj. injection Hj as <-.
      rewrite Ei in Ej. discriminate.
  - left. apply map_empty. intros j.
    destruct (pending l !! j) as [y|] eqn:Ej; [|reflexivity].
    apply H in Ej. rewrite E in Ej. discriminate.
Qed.

Lemma single_flight_size (l : Loop A S) :
  single_flight l -> (size (pending l) <= 1)%nat.
Proof.
  intros H. destruct (single_flight_shape l H) as [->|(i & x & -> & _)].
  - rewrite map_size_empty. lia.
  - rewrite map_size_singleton. lia.
Qed.

(** A call cancels what is pending and sets one new timer. *)
Lemma debounce_rearms (args : A) (l : Loop A S) :
  single_flight l ->
  pending (debounce delay args l) = {[next_timer l := ((now l + delay)%N, args)]} /\
  debounceTimer (debounce delay args l) = Some (next_timer l).
Proof.
  intros H. unfold debounce, setTimeout, clearTimeout.
  destruct (single_flight_shape l H) as [E|(i & x & E & Ei)].
  - destruct (debounceTimer l); simpl; rewrite E, ?delete_empty, insert_empty; auto.
  - rewrite Ei. simpl. rewrite E, delete_singleton_eq, insert_empty. auto.
Qed.

Lemma debounce_single_flight (args : A) (l : Loop A S) :
  single_flight l -> single_flight (debounce delay args l).
Proof.
  intros H i x. destruct (debounce_rearms args l H) as [-> ->].
  intros [<- _]%lookup_singleton_Some. reflexivity.
Qed.

Lemma fire_single_flight (x : nat * (N * A)) (l : Loop A S) :
  single_flight l -> single_flight (fire func x l).
Proof.
  intros H i y. unfold fire. simpl. intros Hi.
  apply lookup_delete_Some in Hi as [_ Hi]. now apply H in Hi.
Qed.

Lemma run_timers_single_flight (fuel : nat) (t : N) (l : Loop A S) :
  single_flight l -> single_flight (run_timers func fuel t l).
Proof.
  revert l. induction fuel as [|f IH]; intros l H; simpl; [exact H|].
  destruct (next_due t l); [|exact H]. now apply IH, fire_single_flight.
Qed.

Lemma advance_single_flight (t : N) (l : Loop A S) :
  single_flight l -> single_flight (advance func t l).
Proof.
  intros H. unfold advance.
  apply (run_timers_single_flight (size (pending l)) t) in H. exact H.
Qed.

Lemma run_single_flight (steps : list (Step A)) (l : Loop A S) :
  single_flight l -> single_flight (run func delay steps l).
Proof.
  revert l. induction steps as [|s r IH]; intros l H; [exact H|].
  apply IH. destruct s; [now apply debounce_single_flight|now apply advance_single_flight].
Qed.

Lemma start_single_flight (s : S) : single_flight (start (A := A) s).
Proof. intros i x. unfold start. simpl. now rewrite lookup_empty. Qed.

Lemma next_due_empty (t : N) (l : Loop A S) :
  pending l = ∅ -> next_due t l = None.
Proof. intros E. unfold next_due. now rewrite E, map_to_list_empty. Qed.

Lemma next_due_singleton (t : N) (l : Loop A S) (i : nat) (x : N * A) :
  pending l = {[i := x]} ->
  next_due t l = if (x.1 <=? t)%N then Some (i, x) else None.
Proof.
  intros E. unfold next_due. rewrite E, map_to_list_singleton. simpl.
  now destruct (x.1 <=? t)%N.
Qed.

(** Time passes and no timer is due: only the clock changes. *)
Lemma advance_idle (t : N) (l : Loop A S) :
  single_flight l -> (forall i x, pending l !! i = Some x -> (t < x.1)%N) ->
  advance func t l =
    {| app := app l; now := N.max (now l) t; next_timer := next_timer l;
       pending := pending l; debounceTimer := debounceTimer l; fired := fired l |}.
Proof.
  intros H Hlate. unfold advance.
  assert (E : run_timers func (size (pending l)) t l = l).
  { destruct (single_flight_shape l H) as [E|(i & x & E & _)].
    - now rewrite E, map_size_empty.
    - rewrite E at 1. rewrite map_size_singleton. simpl.
      rewrite (next_due_singleton t l i x E).
      assert (t < x.1)%N by (apply (Hlate i); rewrite E; apply lookup_singleton_eq).
      destruct (N.leb_spec x.1 t); [lia|reflexivity]. }
  now rewrite E.
Qed.

(** Time passes and the one timer is due: its callback runs. *)
Lemma advance_due (t : N) (l : Loop A S) (i : nat) (x : N * A) :
  pending l = {[i := x]} -> (now l <= x.1)%N -> (x.1 <= t)%N ->
  advance func t l =
    {| app := func x.2 (app l); now := t; next_timer := next_timer l;
       pending := ∅; debounceTimer := debounceTimer l;
       fired := fired l ++ [(x.1, x.2)] |}.
Proof.
  intros E Hnow Hdue. unfold advance.
  assert (R : run_timers func (size (pending l)) t l = fire func (i, x) l).
  { rewrite E at 1. rewrite map_size_singleton. simpl.
    rewrite (next_due_singleton t l i x E).
    destruct (N.leb_spec x.1 t); [reflexivity|lia]. }
  rewrite R. unfold fire. simpl. rewrite E, delete_singleton_eq.
  rewrite (N.max_r (now l) x.1), (N.max_r x.1 t) by lia. reflexivity.
Qed.

Lemma debounce_frame (args : A) (l : Loop A S) :
  now (debounce delay args l) = now l /\ app (debounce delay args l) = app l /\
  fired (debounce delay args l) = fired l.
Proof. unfold debounce, clearTimeout. destruct (debounceTimer l); repeat split. Qed.

(** A call while the previous timer is pending: the timer is replaced. *)
Lemma call_in_window (t : N) (args : A) (l : Loop A S) :
  single_flight l -> (now l <= t)%N ->
  (forall i x, pending l !! i = Some x -> (t < x.1)%N) ->
  let l' := debounce delay args (advance func t l) in
  single_flight l' /\
  pending l' = {[next_timer l := ((t + delay)%N, args)]} /\
  now l' = t /\ app l' = app l /\ fired l' = fired l.
Proof.
  intros H Hnow Hlate l'. subst l'. rewrite advance_idle by assumption.
  match goal with |- context [debounce delay args ?x] => set (l1 := x) end.
  assert (H1 : single_flight l1) by exact H.
  destruct (debounce_rearms args l1 H1) as [Hp Hd].
  destruct (debounce_frame args l1) as (Hn & Ha & Hf).
  split; [now apply debounce_single_flight|]. rewrite Hp, Hn, Ha, Hf.
  subst l1. simpl. rewrite N.max_r by lia. repeat split.
Qed.

Lemma last_cons {B} (d c : B) (r : list B) :
  List.last (d :: r) c = List.last r d.
Proof.
  revert d c. induction r as [|p r IH]; intros d c; [reflexivity|].
  change (List.last (d :: p :: r) c) with (List.last (p :: r) c).
  now rewrite !IH.
Qed.

(** Calls in the window of one another: after them only the timer of the
    last one is pending, and no callback has run. *)
Lemma run_calls (calls : list (N * A)) (l : Loop A S) (i : nat) (c : N * A) :
  single_flight l -> pending l = {[i := ((c.1 + delay)%N, c.2)]} -> now l = c.1 ->
  in_window delay c.1 calls ->
  let l' := run func delay (calls_at calls) l in
  single_flight l' /\
  (exists j, pending l' = {[j := (((List.last calls c).1 + delay)%N, (List.last calls c).2)]}) /\
  now l' = (List.last calls c).1 /\ app l' = app l /\ fired l' = fired l.
Proof.
  revert l i c. induction calls as [|d r IH]; intros l i c H Hp Hn Hw.
  - simpl. split; [exact H|]. split; [now exists i|]. auto.
  - destruct Hw as [[Hle Hlt] Hw].
    change (run func delay (calls_at (d :: r)) l)
      with (run func delay (calls_at r) (debounce delay d.2 (advance func d.1 l))).
    destruct (call_in_window d.1 d.2 l H) as (H' & Hp' & Hn' & Ha' & Hf').
    + lia.
    + intros j x. rewrite Hp. intros [_ <-]%lookup_singleton_Some. simpl. lia.
    + specialize (IH _ _ d H' Hp' Hn' Hw).
      destruct IH as (H'' & Hp'' & Hn'' & Ha'' & Hf'').
      rewrite last_cons.
      split; [exact H''|]. split; [exact Hp''|].
      split; [exact Hn''|]. split; [now rewrite Ha''|now rewrite Hf''].
Qed.

End DebounceFacts.

(** Line 84: the debounced recomputation is the step [Call] of the loop
    whose callbacks recompute, with the delay of the script. *)
Lemma debouncedCalculate_step (args : list Event) (l : Loop (list Event) Page) :
  step recompute DEBOUNCE_DELAY l (Call args) = debouncedCalculate args l.
Proof. reflexivity. Qed.

Lemma run_app {A S} (func : A -> S -> S) (delay : N) (xs ys : list (Step A))
    (l : Loop A S) :
  run func delay (xs ++ ys) l = run func delay ys (run func delay xs l).
Proof. apply fold_left_app. Qed.

(** C4.  Whatever calls and waits came before, at most one timer is
    pending, and a call of the debounced function leaves exactly one: a new
    timer, due 300 after the call, holding the arguments of that call.  So
    a burst of calls, each made before the timer of the previous one is
    due, followed by a wait until that of the last one is, runs the
    callback exactly once, 300 after the last call and with its arguments;
    nothing is pending afterwards. *)
Theorem debounce_collapses_burst {A S} (func : A -> S -> S) (s : S)
    (steps : list (Step A)) (args : A) (c : N * A) (calls : list (N * A)) (T : N) :
  in_window DEBOUNCE_DELAY c.1 calls ->
  ((List.last calls c).1 + DEBOUNCE_DELAY <= T)%N ->
  let reached := run func DEBOUNCE_DELAY steps (start s) in
  let final :=
    run func DEBOUNCE_DELAY (calls_at (c :: calls) ++ [Wait T]) (start s) in
  (size (pending reached) <= 1)%nat /\
  pending (debounce DEBOUNCE_DELAY args reached) =
    {[next_timer reached := ((now reached + 300)%N, args)]} /\
  fired final = [(((List.last calls c).1 + 300)%N, (List.last calls c).2)] /\
  app final = func (List.last calls c).2 s /\
  pending final = ∅.
Proof.
  intros Hw HT reached final.
  assert (Hr : single_flight reached)
    by apply run_single_flight, start_single_flight.
  split; [now apply single_flight_size|].
  split; [now apply debounce_rearms|].
  subst final. rewrite run_app.
  change (run func DEBOUNCE_DELAY (calls_at (c :: calls)) (start s))
    with (run func DEBOUNCE_DELAY (calls_at calls)
            (debounce DEBOUNCE_DELAY c.2 (advance func c.1 (start s)))).
  destruct (call_in_window func DEBOUNCE_DELAY c.1 c.2 (start s))
    as (H1 & Hp1 & Hn1 & Ha1 & Hf1).
  { apply start_single_flight. }
  { simpl. lia. }
  { intros i x. simpl. now rewrite lookup_empty. }
  destruct (run_calls func DEBOUNCE_DELAY calls _ _ c H1 Hp1 Hn1 Hw)
    as (H2 & [j Hp2] & Hn2 & Ha2 & Hf2).
  change (run func DEBOUNCE_DELAY [Wait T] ?l) with (advance func T l).
  match goal with |- context [advance func T ?l] => set (l2 := l) in * end.
  rewrite (advance_due func T l2 j _ Hp2) by (simpl; lia).
  simpl. rewrite Ha2, Ha1, Hf2, Hf1. repeat split.
Qed.

(** Five calls at the times 0, 100, 250, 400 and 600, then the time 1000:
    the callback runs once, at 900, with the arguments of the fifth. *)
Lemma debounce_five_calls :
  fired (run (fun a s => a :: s) DEBOUNCE_DELAY
           (calls_at [(0%N, "a"); (100%N, "b"); (250%N, "c"); (400%N, "d"); (600%N, "e")]
              ++ [Wait 1000])
           (start [])) = [(900%N, "e")] /\
  app (run (fun a s => a :: s) DEBOUNCE_DELAY
         (calls_at [(0%N, "a"); (100%N, "b"); (250%N, "c"); (400%N, "d"); (600%N, "e")]
            ++ [Wait 1000])
         (start [])) = ["e"].
Proof.
  pose proof (debounce_collapses_burst (fun (a : string) s => a :: s) []
                [] "x" (0%N, "a") [(100%N, "b"); (250%N, "c"); (400%N, "d"); (600%N, "e")]
                1000%N) as H.
  cbv zeta in H. destruct H as (_ & _ & Hf & Ha & _).
  - simpl. unfold DEBOUNCE_DELAY. lia.
  - simpl. unfold DEBOUNCE_DELAY. lia.
  - split; [exact Hf|exact Ha].
Defined.

(** ** The caret *)

(** C7.  When the input event reaches the field, with the caret inside its
    text, the handler sets the value to the reformatted text and both ends
    of the selection to max(0, oldCaret + (newLength - oldLength)). *)
Theorem caret_after_reformat (e : Event) (l : Loop (list Event) Page)
    (input : Element) :
  elements (app l) !! target e = Some input ->
  0 <= selectionStart input <= Z.of_nat (length (value input)) ->
  let oldLength := Z.of_nat (length (value input)) in
  let newLength := Z.of_nat (length (formatNumberWithCommas (value input))) in
  let newPosition := Z.max 0 (selectionStart input + (newLength - oldLength)) in
  exists input',
    elements (app (handleCurrencyInput e l)) !! target e = Some input' /\
    value input' = formatNumberWithCommas (value input) /\
    selectionStart input' = newPosition /\
    selectionEnd input' = newPosition.
Proof.
  intros Hin Hcaret oldLength newLength newPosition.
  unfold handleCurrencyInput, reformat.
  rewrite bind_getElementById, Hin. cbv zeta.
  destruct (debounce_frame DEBOUNCE_DELAY ([] : list Event)
              {| app := with_element (target e)
                          (setSelectionRange newPosition newPosition
                             (set_value (formatNumberWithCommas (value input)) input))
                          (app l);
                 now := now l; next_timer := next_timer l; pending := pending l;
                 debounceTimer := debounceTimer l; fired := fired l |})
    as (_ & Ha & _).
  unfold debouncedCalculate. fold oldLength newLength newPosition. rewrite Ha.
  cbn [app]. rewrite elements_with_element, lookup_insert_eq.
  eexists. split; [reflexivity|]. split; [reflexivity|].
  unfold setSelectionRange, clamp_index. cbn [value set_value selectionStart selectionEnd].
  fold newLength.
  assert (0 <= newPosition <= newLength) by (subst newPosition newLength oldLength; lia).
  destruct (Z.ltb_spec newPosition 0); [lia|]. split; lia.
Qed.

(** The field holds 1234 with the caret at its end: the text becomes 1,234
    and the caret follows to position 5. *)
Lemma caret_after_comma_inserted :
  let input := {| value := str "1234"; textContent := [];
                  selectionStart := 4; selectionEnd := 4 |} in
  let l := start (with_element "monthlyTrail" input sample_page) in
  exists input',
    elements (app (handleCurrencyInput {| target := "monthlyTrail" |} l))
      !! "monthlyTrail" = Some input' /\
    value input' = str "1,234" /\ selectionStart input' = 5.
Proof.
  cbv zeta.
  destruct (caret_after_reformat {| target := "monthlyTrail" |}
              (start (with_element "monthlyTrail"
                        {| value := str "1234"; textContent := [];
                           selectionStart := 4; selectionEnd := 4 |} sample_page))
              {| value := str "1234"; textContent := [];
                 selectionStart := 4; selectionEnd := 4 |})
    as (input' & H1 & H2 & H3 & _).
  - vm_compute. reflexivity.
  - vm_compute. split; discriminate.
  - exists input'. split; [exact H1|]. split; [rewrite H2|rewrite H3];
      vm_compute; reflexivity.
Defined.

(** * Further properties *)

(** ** What a recomputation keeps *)

Lemma keeps_bind {A B} (I : Page -> Prop) (c : M A) (k : A -> M B) :
  keeps I c -> (forall a, keeps I (k a)) -> keeps I (bind c k).
Proof.
  intros Hc Hk p Hp. unfold bind. specialize (Hc p Hp).
  destruct (c p) as [p' [a|e]]; simpl in *; [now apply Hk|exact Hc].
Qed.

Lemma keeps_reads {A} (I : Page -> Prop) (f : Page -> A) : keeps I (reads f).
Proof. intros p Hp. exact Hp. Qed.

Lemma keeps_get_value (I : Page -> Prop) (el : option Element) : keeps I (get_value el).
Proof. intros p Hp. destruct el; exact Hp. Qed.

Lemma keeps_set_textContent (I : Page -> Prop) (id : string) (text : jsstring) :
  (forall p e, elements p !! id = Some e -> I p ->
               I (with_element id (write_text text e) p)) ->
  keeps I (set_textContent id text).
Proof.
  intros Hw p Hp. unfold set_textContent, bind, getElementById, reads.
  destruct (elements p !! id) as [e|] eqn:E; simpl; [now apply Hw|exact Hp].
Qed.

Lemma calculate_keeps (I : Page -> Prop) :
  (forall id text p e, elements p !! id = Some e -> I p ->
                       I (with_element id (write_text text e) p)) ->
  (forall b a acq, keeps I (updateComparisonChart b a acq)) ->
  keeps I calculate.
Proof.
  intros Hw Hc. unfold calculate.
  repeat first
    [ apply keeps_set_textContent; intros; now apply Hw
    | apply Hc
    | apply (keeps_reads I (fun p => elements p !! _))
    | apply keeps_reads | apply keeps_get_value | progress cbv zeta
    | apply keeps_bind; [|intros ?] ].
Qed.

Lemma same_fields_write (p q : Page) (id : string) (text : jsstring) (e : Element) :
  elements q !! id = Some e -> same_fields p q ->
  same_fields p (with_element id (write_text text e) q).
Proof.
  intros E [Hl Hf]. split; [exact Hl|]. intros id'.
  rewrite <- Hf. unfold with_element. cbn [elements].
  destruct (decide (id = id')) as [<-|Hne].
  - rewrite lookup_insert_eq, E. reflexivity.
  - now rewrite lookup_insert_ne.
Qed.

Lemma same_fields_chart (p : Page) (b a : Number) (acq : bool) :
  keeps (same_fields p) (updateComparisonChart b a acq).
Proof.
  intros q Hq. unfold updateComparisonChart, bind, getElementById, reads.
  destruct (elements q !! "comparisonChart"); exact Hq.
Qed.

Lemma calculate_same_fields (p : Page) : same_fields p (fst (calculate p)).
Proof.
  apply calculate_keeps.
  - intros. now apply same_fields_write.
  - apply same_fields_chart.
  - split; reflexivity.
Qed.

Lemma same_fields_is_Some (p q : Page) (id : string) :
  same_fields p q -> is_Some (elements p !! id) -> is_Some (elements q !! id).
Proof.
  intros [_ H] [e E]. specialize (H id). rewrite E in H.
  destruct (elements q !! id); [eauto|discriminate].
Qed.

(** X1.  A recomputation writes texts and nothing else: whether it returns
    or throws, the radio group is as before, no element is added or
    removed, and the value and the selection of every element (the two
    input fields among them) are unchanged. *)
Theorem calculate_keeps_fields (p : Page) (id : string) :
  let p' := fst (calculate p) in
  loanPurpose p' = loanPurpose p /\
  value <$> elements p' !! id = value <$> elements p !! id /\
  selectionStart <$> elements p' !! id = selectionStart <$> elements p !! id /\
  selectionEnd <$> elements p' !! id = selectionEnd <$> elements p !! id /\
  (is_Some (elements p' !! id) <-> is_Some (elements p !! id)).
Proof.
  destruct (calculate_same_fields p) as [Hl Hf]. specialize (Hf id). cbv zeta.
  split; [exact Hl|].
  destruct (elements (fst (calculate p)) !! id) as [e'|],
           (elements p !! id) as [e|]; simpl in *; try discriminate.
  - injection Hf as -> -> ->. repeat split; eauto.
  - repeat split; try reflexivity; intros [? ?]; discriminate.
Qed.

Lemma updateComparisonChart_accounted (b a : Number) (acq : bool) :
  keeps chart_accounted (updateComparisonChart b a acq).
Proof.
  intros p Hp. unfold updateComparisonChart, bind, getElementById, reads.
  destruct (elements p !! "comparisonChart"); simpl; [|exact Hp].
  unfold chart_accounted in *. simpl.
  destruct (comparisonChart p); rewrite Hp; reflexivity.
Qed.

Lemma recompute_accounted (args : list Event) (p : Page) :
  chart_accounted p -> chart_accounted (recompute args p).
Proof.
  unfold recompute. apply calculate_keeps.
  - intros id text q e _ H. exact H.
  - apply updateComparisonChart_accounted.
Qed.

(** X2.  The chart is destroyed before a new one is made: on a page whose
    live charts are the one the module variable holds (or none), any
    number of recomputations leaves it so, and never more than one chart
    alive. *)
Theorem charts_never_pile_up (n : nat) (p : Page) :
  chart_accounted p ->
  chart_accounted (Nat.iter n (recompute []) p) /\
  (live_charts (Nat.iter n (recompute []) p) <= 1)%nat.
Proof.
  intros Hp.
  assert (H : chart_accounted (Nat.iter n (recompute []) p)).
  { induction n as [|n IH]; [exact Hp|]. simpl. unfold recompute at 1.
    apply calculate_keeps; [|apply updateComparisonChart_accounted|exact IH].
    intros id text q e _ Hq. exact Hq. }
  split; [exact H|]. unfold chart_accounted in H.
  destruct (comparisonChart _); lia.
Qed.

(** Three recomputations of the sample page. *)
Lemma charts_never_pile_up_sample :
  (live_charts (Nat.iter 3 (recompute []) sample_page) <= 1)%nat.
Proof.
  apply (charts_never_pile_up 3 sample_page). reflexivity.
Defined.

Lemma complete_recompute (args : list Event) (p : Page) :
  complete p -> complete (recompute args p).
Proof.
  intros [[Ht Hm] Hd]. pose proof (calculate_same_fields p) as H.
  unfold recompute. split; [split|].
  - now apply (same_fields_is_Some p).
  - now apply (same_fields_is_Some p).
  - eapply Forall_impl; [exact Hd|]. intros id. apply (same_fields_is_Some p _ _ H).
Qed.

Lemma complete_with_element (id : string) (e : Element) (p : Page) :
  is_Some (elements p !! id) -> complete p -> complete (with_element id e p).
Proof.
  intros Hid [[Ht Hm] Hd].
  assert (K : forall id', is_Some (elements p !! id') ->
                          is_Some (elements (with_element id e p) !! id')).
  { intros id' H. rewrite elements_with_element.
    destruct (decide (id = id')) as [<-|Hne].
    - rewrite lookup_insert_eq. eauto.
    - now rewrite lookup_insert_ne. }
  split; [split; now apply K|].
  eapply Forall_impl; [exact Hd|]. intros id'. apply K.
Qed.

(** ** Recomputing twice *)

Lemma updateComparisonChart_built (b a : Number) (acq : bool) (p : Page) (c : Element) :
  elements p !! "comparisonChart" = Some c ->
  updateComparisonChart b a acq p =
    ({| elements := elements p; loanPurpose := loanPurpose p;
        comparisonChart := Some (chart_of b a acq);
        live_charts := S match comparisonChart p with
                         | Some _ => Nat.pred (live_charts p)
                         | None => live_charts p
                         end |}, Return tt).
Proof.
  intros E. unfold updateComparisonChart. rewrite bind_getElementById, E. reflexivity.
Qed.

Lemma updateComparisonChart_skipped (b a : Number) (acq : bool) (p : Page) :
  elements p !! "comparisonChart" = None ->
  updateComparisonChart b a acq p = (p, Return tt).
Proof.
  intros E. unfold updateComparisonChart. rewrite bind_getElementById, E. reflexivity.
Qed.

(** Writing the text an element already has changes nothing. *)
Lemma bind_set_textContent_same {B} (id : string) (text : jsstring) (k : M B) (p : Page) :
  text_of id p = Some text -> (set_textContent id text ;;; k) p = k p.
Proof.
  unfold text_of. intros H.
  destruct (elements p !! id) as [e|] eqn:E; [|discriminate].
  injection H as H. rewrite (bind_set_textContent id text e k p E). f_equal.
  destruct p as [els lp cc lc], e as [v t s1 s2]. simpl in *. subst t.
  unfold with_element, write_text. simpl. f_equal. now apply insert_id.
Qed.

Lemma calculate_complete_chart (p : Page) (trail multiple canvas : Element) :
  elements p !! "monthlyTrail" = Some trail ->
  elements p !! "bookMultiple" = Some multiple ->
  Forall (fun id => is_Some (elements p !! id)) display_targets ->
  elements p !! "comparisonChart" = Some canvas ->
  let f := figures (parseFormattedNumber (value trail))
             (read_multiple (value multiple)) (getSelectedPurpose p) in
  comparisonChart (fst (calculate p))
    = Some (chart_of (bookValue f) (accessAmount f) (isAcquisition f)) /\
  live_charts (fst (calculate p))
    = S match comparisonChart p with
        | Some _ => Nat.pred (live_charts p)
        | None => live_charts p
        end.
Proof.
  intros Ht Hm Hd Hc. unfold display_targets in Hd.
  repeat (apply Forall_cons_1 in Hd as [[? ?] Hd]).
  unfold calculate.
  rewrite bind_getElementById, Ht, bind_get_value.
  rewrite bind_getElementById, Hm, bind_get_value.
  rewrite bind_reads. cbv zeta.
  do 8 (erewrite bind_set_textContent by (lookup_through; eassumption)).
  erewrite updateComparisonChart_built by (lookup_through; exact Hc).
  split; reflexivity.
Qed.

(** On a complete page the recomputation reaches a fixed point. *)
Lemma calculate_settled (p : Page) :
  complete p ->
  let p1 := fst (calculate p) in
  calculate p1 = (p1, Return tt).
Proof.
  intros Hcomplete. pose proof Hcomplete as [[[trail Ht] [multiple Hm]] Hd].
  destruct (calculate_complete p trail multiple Ht Hm Hd)
    as (p1 & Hcalc & Htexts & Hl & Hother & Hnone).
  cbv zeta. rewrite Hcalc. cbn [fst].
  assert (Ht1 : elements p1 !! "monthlyTrail" = Some trail).
  { rewrite Hother; [exact Ht|]. unfold display_targets.
    rewrite !not_elem_of_cons. repeat split; try discriminate. apply not_elem_of_nil. }
  assert (Hm1 : elements p1 !! "bookMultiple" = Some multiple).
  { rewrite Hother; [exact Hm|]. unfold display_targets.
    rewrite !not_elem_of_cons. repeat split; try discriminate. apply not_elem_of_nil. }
  assert (Hc1 : elements p1 !! "comparisonChart" = elements p !! "comparisonChart").
  { apply Hother. unfold display_targets.
    rewrite !not_elem_of_cons. repeat split; try discriminate. apply not_elem_of_nil. }
  assert (Hp1 : getSelectedPurpose p1 = getSelectedPurpose p)
    by (unfold getSelectedPurpose; now rewrite Hl).
  unfold displayed in Htexts.
  repeat (apply Forall_cons_1 in Htexts as [? Htexts]). cbn [fst snd] in *.
  unfold calculate.
  rewrite bind_getElementById, Ht1, bind_get_value.
  rewrite bind_getElementById, Hm1, bind_get_value.
  rewrite bind_reads, Hp1. cbv zeta.
  do 8 (rewrite bind_set_textContent_same by assumption).
  destruct (elements p !! "comparisonChart") as [canvas|] eqn:Hc.
  - rewrite (updateComparisonChart_built _ _ _ p1 canvas Hc1).
    destruct (calculate_complete_chart p trail multiple canvas Ht Hm Hd Hc) as [Hcc Hlc].
    rewrite Hcalc in Hcc, Hlc. cbn [fst] in Hcc, Hlc.
    destruct p1 as [els lp cc lc]. simpl in *. rewrite Hcc, Hlc. reflexivity.
  - now rewrite updateComparisonChart_skipped.
Qed.

(** X3.  On a page that has both inputs and every display target, a second
    recomputation right after the first returns and changes nothing: the
    texts, the chart and the count of live charts are those the first one
    left. *)
Theorem calculate_idempotent (p : Page) :
  complete p ->
  let p1 := fst (calculate p) in
  calculate p1 = (p1, Return tt).
Proof. exact (calculate_settled p). Qed.

(** The sample page, recomputed twice. *)
Lemma calculate_idempotent_sample :
  calculate (fst (calculate sample_page)) = (fst (calculate sample_page), Return tt).
Proof. exact (calculate_idempotent sample_page sample_page_complete). Defined.

Lemma synced_recompute (args : list Event) (p : Page) :
  complete p -> synced (recompute args p).
Proof. intros H. apply (calculate_settled p H). Qed.

Lemma displayed_texts (p : Page) (trail multiple : Element) :
  elements p !! "monthlyTrail" = Some trail ->
  elements p !! "bookMultiple" = Some multiple ->
  complete p ->
  Forall (fun d => text_of d.1 (fst (calculate p)) = Some d.2)
    (displayed (value trail) (value multiple) (getSelectedPurpose p)).
Proof.
  intros Ht Hm [_ Hd].
  destruct (calculate_complete p trail multiple Ht Hm Hd) as (p' & E & H & _).
  now rewrite E.
Qed.

Lemma synced_texts (p : Page) :
  complete p -> synced p ->
  exists trail multiple,
    elements p !! "monthlyTrail" = Some trail /\
    elements p !! "bookMultiple" = Some multiple /\
    Forall (fun d => text_of d.1 p = Some d.2)
      (displayed (value trail) (value multiple) (getSelectedPurpose p)).
Proof.
  intros Hc Hy. pose proof Hc as [[[trail Ht] [multiple Hm]] _].
  exists trail, multiple. split; [exact Ht|]. split; [exact Hm|].
  pose proof (displayed_texts p trail multiple Ht Hm Hc) as H.
  unfold synced in Hy. now rewrite Hy in H.
Qed.

(** ** Edge cases of the recomputation *)

(** X4.  When the field monthlyTrail or the field bookMultiple is not in the
    document, the recomputation throws a TypeError before it has written
    anything: the page is unchanged. *)
Theorem calculate_missing_input (p : Page) :
  elements p !! "monthlyTrail" = None \/ elements p !! "bookMultiple" = None ->
  calculate p = (p, Throw TypeError).
Proof.
  intros [H|H]; unfold calculate; rewrite bind_getElementById.
  - now rewrite H.
  - destruct (elements p !! "monthlyTrail") as [trail|]; [|reflexivity].
    now rewrite bind_get_value, bind_getElementById, H.
Qed.

(** The sample page without the field of the multiple. *)
Lemma calculate_missing_input_sample :
  calculate (without "bookMultiple" sample_page)
  = (without "bookMultiple" sample_page, Throw TypeError).
Proof.
  apply calculate_missing_input. right. vm_compute. reflexivity.
Defined.

(** X5.  With a trail that is not NaN and a finite, non-zero multiple, none
    of the five figures is NaN, also for an infinite trail. *)
Theorem figures_never_nan (m k : Number) (p : jsstring) (s : bool)
    (mk : positive) (ek : Z) :
  m <> nan -> k = S754_finite s mk ek ->
  let f := figures m k p in
  annualTrail f <> nan /\ bookValue f <> nan /\ workingCapital f <> nan /\
  acquisitionFinance f <> nan /\ accessAmount f <> nan.
Proof.
  intros Hm -> f.
  assert (E12 : exists m12 e12, of_decimal false 12 0 = S754_finite false m12 e12)
    by (vm_compute; eauto).
  assert (E7 : exists m7 e7, of_decimal false 7 (-1) = S754_finite false m7 e7)
    by (vm_compute; eauto).
  assert (E5 : exists m5 e5, of_decimal false 5 (-1) = S754_finite false m5 e5)
    by (vm_compute; eauto).
  destruct E12 as (m12 & e12 & E12), E7 as (m7 & e7 & E7), E5 as (m5 & e5 & E5).
  unfold f, figures.
  cbn [annualTrail bookValue workingCapital acquisitionFinance accessAmount].
  rewrite E12, E7, E5.
  assert (Ha : mul m (S754_finite false m12 e12) <> nan)
    by now apply mul_finite_not_nan.
  assert (Hb : mul (mul m (S754_finite false m12 e12)) (S754_finite s mk ek) <> nan)
    by now apply mul_finite_not_nan.
  repeat split; try assumption; try (now apply mul_finite_not_nan).
  destruct (strict_eq p (str "acquisition")); now apply mul_finite_not_nan.
Qed.

(** An infinite trail and the multiple 3. *)
Lemma figures_never_nan_sample :
  bookValue (figures pos_infinity (of_Z 3) (str "acquisition")) <> nan.
Proof.
  assert (E : exists m e, of_Z 3 = S754_finite false m e) by (vm_compute; eauto).
  destruct E as (m & e & E).
  pose proof (figures_never_nan pos_infinity (of_Z 3) (str "acquisition") false m e) as H.
  cbv zeta in H. destruct H as (_ & H & _); [discriminate|exact E|exact H].
Defined.

(** X6.  The selected purpose is the value of the first checked radio of the
    group, in document order, whatever the radios after it. *)
Theorem getSelectedPurpose_first_checked (p : Page) (before after : list Radio)
    (r : Radio) :
  loanPurpose p = before ++ r :: after ->
  Forall (fun x => checked x = false) before -> checked r = true ->
  getSelectedPurpose p = radio_value r.
Proof.
  intros H Hb Hr. unfold getSelectedPurpose. rewrite H. clear H.
  assert (E : List.find checked (before ++ r :: after) = Some r).
  { induction Hb as [|x l Hx _ IH]; simpl; [now rewrite Hr|].
    rewrite Hx. exact IH. }
  rewrite E. reflexivity.
Qed.

(** Two radios checked: the first of them is selected. *)
Lemma getSelectedPurpose_first_checked_sample :
  getSelectedPurpose
    {| elements := ∅;
       loanPurpose := [ {| radio_value := str "acquisition"; checked := false |};
                        {| radio_value := str "working-capital"; checked := true |};
                        {| radio_value := str "acquisition"; checked := true |} ];
       comparisonChart := None; live_charts := 0 |}
  = str "working-capital".
Proof.
  apply (getSelectedPurpose_first_checked _
           [ {| radio_value := str "acquisition"; checked := false |} ]
           [ {| radio_value := str "acquisition"; checked := true |} ]
           {| radio_value := str "working-capital"; checked := true |}).
  - reflexivity.
  - repeat constructor.
  - reflexivity.
Defined.

(** X7.  When the digits of the trail field make zero (no digit at all, or
    only zeros) and the multiple is finite and not zero, the cards for the
    monthly and the annual trail show $0, and the book value and the access
    amount show $0 with the sign of the multiple: -$0 for a negative
    multiple. *)
Theorem empty_trail_shows_zero (p : Page) (trail multiple : Element)
    (s : bool) (mk : positive) (ek : Z) :
  complete p ->
  elements p !! "monthlyTrail" = Some trail ->
  elements p !! "bookMultiple" = Some multiple ->
  digits_value (strip_non_digits (value trail)) = 0%N ->
  read_multiple (value multiple) = S754_finite s mk ek ->
  let p' := fst (calculate p) in
  text_of "displayMonthlyTrail" p' = Some (str "$0") /\
  text_of "annualTrail" p' = Some (str "$0") /\
  text_of "bookValue" p' = Some (sign_text s ++ str "$0") /\
  text_of "accessAmount" p' = Some (sign_text s ++ str "$0").
Proof.
  intros Hc Ht Hm Hz Hk. cbv zeta.
  pose proof (displayed_texts p trail multiple Ht Hm Hc) as H.
  unfold displayed in H.
  repeat (apply Forall_cons_1 in H as [? H]). cbn [fst snd] in *.
  assert (E0 : parseFormattedNumber (value trail) = S754_zero false).
  { rewrite parseFormattedNumber_eq. unfold spec_parseInteger. rewrite Hz. reflexivity. }
  rewrite E0, Hk in *.
  assert (E12 : exists m12 e12, of_decimal false 12 0 = S754_finite false m12 e12)
    by (vm_compute; eauto).
  assert (E7 : exists m7 e7, of_decimal false 7 (-1) = S754_finite false m7 e7)
    by (vm_compute; eauto).
  assert (E5 : exists m5 e5, of_decimal false 5 (-1) = S754_finite false m5 e5)
    by (vm_compute; eauto).
  destruct E12 as (m12 & e12 & E12), E7 as (m7 & e7 & E7), E5 as (m5 & e5 & E5).
  unfold figures in *.
  cbn [annualTrail bookValue accessAmount] in *.
  rewrite E12, E7, E5 in *.
  change (mul (S754_zero false) (S754_finite false m12 e12)) with (S754_zero false) in *.
  change (mul (S754_zero false) (S754_finite s mk ek)) with (S754_zero (xorb false s)) in *.
  assert (Ea : (if strict_eq (getSelectedPurpose p) (str "acquisition")
                then mul (S754_zero (xorb false s)) (S754_finite false m7 e7)
                else mul (S754_zero (xorb false s)) (S754_finite false m5 e5))
               = S754_zero s).
  { destruct (strict_eq _ _), s; reflexivity. }
  rewrite Ea in *.
  assert (F : forall b, formatCurrency (S754_zero b) = sign_text b ++ str "$0")
    by (intros []; vm_compute; reflexivity).
  rewrite !F in *. simpl xorb in *.
  repeat split; assumption.
Qed.

(** A trail field without a digit and the multiple -2. *)
Lemma empty_trail_shows_zero_sample :
  let p := with_element "bookMultiple" (blank (str "-2"))
             (with_element "monthlyTrail" (blank (str "n/a")) sample_page) in
  text_of "annualTrail" (fst (calculate p)) = Some (str "$0") /\
  text_of "bookValue" (fst (calculate p)) = Some (str "-$0").
Proof.
  cbv zeta.
  set (p := with_element "bookMultiple" (blank (str "-2"))
             (with_element "monthlyTrail" (blank (str "n/a")) sample_page)).
  assert (Hc : complete p).
  { split; [split|]; [vm_compute; eauto..|].
    unfold display_targets. repeat constructor; vm_compute; eauto. }
  assert (Hk : exists m e, read_multiple (str "-2") = S754_finite true m e)
    by (vm_compute; eauto).
  destruct Hk as (m & e & Hk).
  destruct (empty_trail_shows_zero p (blank (str "n/a")) (blank (str "-2")) true m e)
    as (_ & Ha & Hb & _).
  - exact Hc.
  - reflexivity.
  - reflexivity.
  - reflexivity.
  - exact Hk.
  - split; [exact Ha|exact Hb].
Defined.

(** X8.  After a recomputation on a complete page with the canvas, the chart
    holds the two numbers the cards show, the book value and the access
    amount, in that order; its second label and colour, the access label
    and the percentage text all follow the one test of the purpose:
    acquisition gives 0.7 of the book value, Acquisition (70%), #2e7d32,
    Acquisition Finance and 70% of book value, any other purpose 0.5 of the
    book value, Working Capital (50%), #1976d2, Working Capital and 50% of
    book value. *)
Theorem chart_matches_cards (p : Page) (canvas : Element) :
  complete p ->
  elements p !! "comparisonChart" = Some canvas ->
  let p' := fst (calculate p) in
  exists c b a,
    comparisonChart p' = Some c /\ data c = [b; a] /\
    text_of "bookValue" p' = Some (formatCurrency b) /\
    text_of "accessAmount" p' = Some (formatCurrency a) /\
    if strict_eq (getSelectedPurpose p) (str "acquisition")
    then a = mul b (of_decimal false 7 (-1)) /\
         labels c = [str "Book Value"; str "Acquisition (70%)"] /\
         backgroundColor c = [str "#f26739"; str "#2e7d32"] /\
         text_of "accessLabel" p' = Some (str "Acquisition Finance") /\
         text_of "accessPercent" p' = Some (str "70% of book value")
    else a = mul b (of_decimal false 5 (-1)) /\
         labels c = [str "Book Value"; str "Working Capital (50%)"] /\
         backgroundColor c = [str "#f26739"; str "#1976d2"] /\
         text_of "accessLabel" p' = Some (str "Working Capital") /\
         text_of "accessPercent" p' = Some (str "50% of book value").
Proof.
  intros Hc Hcanvas. pose proof Hc as [[[trail Ht] [multiple Hm]] Hd]. cbv zeta.
  pose proof (displayed_texts p trail multiple Ht Hm Hc) as H.
  destruct (calculate_complete_chart p trail multiple canvas Ht Hm Hd Hcanvas)
    as [Hchart _].
  unfold displayed in H.
  repeat (apply Forall_cons_1 in H as [? H]). cbn [fst snd] in *.
  set (f := figures (parseFormattedNumber (value trail))
              (read_multiple (value multiple)) (getSelectedPurpose p)) in *.
  exists (chart_of (bookValue f) (accessAmount f) (isAcquisition f)),
    (bookValue f), (accessAmount f).
  split; [exact Hchart|]. split; [reflexivity|].
  split; [assumption|]. split; [assumption|].
  unfold f, figures in *.
  cbn [annualTrail bookValue accessAmount isAcquisition accessLabel accessPercent] in *.
  destruct (strict_eq (getSelectedPurpose p) (str "acquisition"));
    repeat split; assumption.
Qed.

(** The chart of the sample page. *)
Lemma chart_matches_cards_sample :
  exists c, comparisonChart (fst (calculate sample_page)) = Some c /\
            labels c = [str "Book Value"; str "Acquisition (70%)"].
Proof.
  destruct (chart_matches_cards sample_page (blank [])) as (c & b & a & Hc & _ & _ & _ & H).
  - exact sample_page_complete.
  - reflexivity.
  - exists c. split; [exact Hc|].
    change (strict_eq (getSelectedPurpose sample_page) (str "acquisition")) with true in H.
    exact (proj1 (proj2 H)).
Defined.

(** ** Whole numbers *)

Lemma shr_1_even (z : Z) :
  0 <= z ->
  shr_1 {| shr_m := 2 * z; shr_r := false; shr_s := false |}
  = {| shr_m := z; shr_r := false; shr_s := false |}.
Proof. destruct z as [|p|p]; [reflexivity|reflexivity|lia]. Qed.

Lemma iter_shr_1_exact (n : positive) (z : Z) :
  0 <= z ->
  SpecFloat.iter_pos shr_1 n
    {| shr_m := z * 2 ^ Zpos n; shr_r := false; shr_s := false |}
  = {| shr_m := z; shr_r := false; shr_s := false |}.
Proof.
  revert z. induction n as [n IH|n IH|]; intros z Hz.
  - cbn [SpecFloat.iter_pos].
    replace (z * 2 ^ Zpos n~1) with (2 * (z * 2 ^ Zpos n * 2 ^ Zpos n)).
    + rewrite shr_1_even by (apply Z.mul_nonneg_nonneg; [|lia]; apply Z.mul_nonneg_nonneg; lia).
      rewrite IH by (apply Z.mul_nonneg_nonneg; lia). now apply IH.
    + replace (Zpos n~1) with (Zpos n + Zpos n + 1) by lia.
      rewrite !Z.pow_add_r by lia. change (2 ^ 1) with 2. ring.
  - cbn [SpecFloat.iter_pos].
    replace (z * 2 ^ Zpos n~0) with (z * 2 ^ Zpos n * 2 ^ Zpos n).
    + rewrite IH by (apply Z.mul_nonneg_nonneg; lia). now apply IH.
    + replace (Zpos n~0) with (Zpos n + Zpos n) by lia.
      rewrite Z.pow_add_r by lia. ring.
  - cbn [SpecFloat.iter_pos]. change (2 ^ 1) with 2. rewrite Z.mul_comm.
    now apply shr_1_even.
Qed.

Lemma scaled_positive (q : positive) (j : Z) :
  0 <= j ->
  exists m, Zpos m = Zpos q * 2 ^ j /\
            Zpos (digits2_pos m) = Zpos (digits2_pos q) + j.
Proof.
  intros Hj. destruct j as [|k|k]; [| |lia].
  - exists q. split; [simpl; lia|lia].
  - exists (Pos.iter xO q k). split; [apply iter_xO_value|].
    rewrite iter_xO_digits. lia.
Qed.

Lemma binary_round_aux_scaled (s : bool) (q M : positive) (k : Z) :
  0 <= k -> Zpos M = Zpos q * 2 ^ k -> Zpos (digits2_pos q) <= 53 ->
  exists m e, binary_round_aux prec emax s (Zpos M) (- k) loc_Exact = S754_finite s m e /\
              e <= 0 /\ Zpos m = Zpos q * 2 ^ (- e).
Proof.
  intros Hk HM Hd.
  destruct (scaled_positive q k Hk) as (M' & HM' & HdM).
  assert (M' = M) by lia. subst M'.
  pose proof (Pos2Z.is_pos (digits2_pos q)) as Hd0.
  set (d := Zpos (digits2_pos q)) in *.
  assert (HF : fexp prec emax (Zpos (digits2_pos M) + - k) = d - 53).
  { rewrite HdM. unfold fexp, emin, prec, emax. lia. }
  destruct (Z_le_gt_dec (d - 53) (- k)) as [Hle|Hgt].
  - exists M, (- k). split; [|split; [lia|]].
    + apply binary_round_aux_exact; [rewrite HF; exact Hle|unfold emax, prec; lia].
    + now rewrite Z.opp_involutive.
  - destruct (scaled_positive q (53 - d)) as (m & Hm & Hdm); [lia|].
    exists m, (d - 53). split; [|split; [lia|]].
    + unfold binary_round_aux, shr_fexp.
      change (Zdigits2 (Zpos M)) with (Zpos (digits2_pos M)). rewrite HF.
      destruct (d - 53 - - k) as [|n|n] eqn:En; [lia| |lia].
      unfold shr. cbn [shr_record_of_loc].
      replace (Zpos M) with (Zpos m * 2 ^ Zpos n).
      2:{ rewrite HM, Hm, <- Z.mul_assoc, <- Z.pow_add_r by lia. f_equal. f_equal. lia. }
      rewrite iter_shr_1_exact by lia.
      cbn [shr_m loc_of_shr_record shr_r shr_s round_nearest_even].
      change (Zdigits2 (Zpos m)) with (Zpos (digits2_pos m)).
      replace (- k + Zpos n) with (d - 53) by lia.
      assert (HF' : fexp prec emax (Zpos (digits2_pos m) + (d - 53)) - (d - 53) = 0).
      { rewrite Hdm. unfold fexp, emin, prec, emax. lia. }
      rewrite HF'. cbn [shr_record_of_loc shr_m].
      assert (Hb : (d - 53 <=? emax - prec) = true)
        by (apply Z.leb_le; unfold emax, prec; lia).
      now rewrite Hb.
    + rewrite Hm. f_equal. f_equal. lia.
Qed.

Lemma of_decimal_holds (n : N) :
  Z.of_N n < 2 ^ 53 -> holds_integer (of_decimal false n 0) n.
Proof.
  intros Hn. destruct n as [|p]; [reflexivity|].
  rewrite of_decimal_int. apply binary_round_small.
  apply digits2_pos_bound; [lia|exact Hn].
Qed.

Lemma mul_holds (x y : Number) (a b : N) :
  holds_integer x a -> holds_integer y b -> Z.of_N (a * b) < 2 ^ 53 ->
  holds_integer (mul x y) (a * b).
Proof.
  intros Hx Hy Hab. destruct a as [|pa], b as [|pb]; simpl in Hx, Hy.
  - subst. reflexivity.
  - destruct Hy as (my & ey & -> & _). subst. reflexivity.
  - destruct Hx as (mx & ex & -> & _). subst. reflexivity.
  - destruct Hx as (mx & ex & -> & Hex & Hmx), Hy as (my & ey & -> & Hey & Hmy).
    change (Npos pa * Npos pb)%N with (Npos (pa * pb)) in *.
    unfold mul, SFmul. cbn [xorb holds_integer].
    replace (ex + ey) with (- (- ex + - ey)) by lia.
    apply binary_round_aux_scaled.
    + lia.
    + rewrite Pos2Z.inj_mul, Hmx, Hmy, Z.pow_add_r by lia.
      rewrite Pos2Z.inj_mul. ring.
    + apply digits2_pos_bound; [lia|exact Hab].
Qed.

Lemma holds_to_Z (x : Number) (n : N) :
  holds_integer x n -> to_Z x = Some (Z.of_N n).
Proof.
  destruct n as [|p]; simpl.
  - intros ->. reflexivity.
  - intros (m & e & -> & He & Hm). now apply (to_Z_scaled false m p e).
Qed.

Lemma formatCurrency_holds (x : Number) (n : N) :
  holds_integer x n -> Z.of_N n < 2 ^ 53 ->
  formatCurrency x = str "$" ++ group3 (to_digits n).
Proof.
  intros Hx Hn. pose proof (holds_to_Z x n Hx) as HZ.
  destruct n as [|p]; simpl in Hx.
  - subst x. reflexivity.
  - destruct Hx as (m & e & -> & _).
    unfold formatCurrency, format_number, decimal_expansion. rewrite HZ.
    assert (Hle : (Z.of_N (Npos p) <=? 2 ^ 53) = true) by (apply Z.leb_le; lia).
    rewrite Hle, N2Z.id.
    rewrite round_decimal_integer. change (Z.to_N (10 ^ Z.of_nat 0)) with 1%N.
    rewrite N.mul_1_r, N.mod_1_r, N.div_1_r. simpl. now rewrite app_nil_r.
Qed.

Lemma formatCurrency_exact (n : N) :
  Z.of_N n <= 2 ^ 53 ->
  formatCurrency (of_decimal false n 0) = str "$" ++ group3 (to_digits n).
Proof.
  intros Hn. pose proof (of_decimal_exact n Hn) as HZ.
  destruct (of_decimal_int_shape n) as [H|[H|(m & e & H)]]; rewrite H in *.
  - injection HZ as HZ. assert (n = 0%N) by lia. subst n. reflexivity.
  - discriminate.
  - unfold formatCurrency, format_number, decimal_expansion. rewrite HZ.
    apply Z.leb_le in Hn. rewrite Hn, N2Z.id.
    rewrite round_decimal_integer. change (Z.to_N (10 ^ Z.of_nat 0)) with 1%N.
    rewrite N.mul_1_r, N.mod_1_r, N.div_1_r. simpl. now rewrite app_nil_r.
Qed.

Lemma figures_whole (n k : N) (p : jsstring) :
  Z.of_N k < 2 ^ 53 -> Z.of_N (n * 12) < 2 ^ 53 -> Z.of_N (n * 12 * k) < 2 ^ 53 ->
  let f := figures (of_decimal false n 0) (of_decimal false k 0) p in
  holds_integer (annualTrail f) (n * 12) /\ holds_integer (bookValue f) (n * 12 * k).
Proof.
  intros Hk Ha Hb. cbv zeta.
  assert (Hn : Z.of_N n < 2 ^ 53) by lia.
  pose proof (of_decimal_holds n Hn) as H1.
  pose proof (of_decimal_holds 12 ltac:(reflexivity)) as H12.
  pose proof (of_decimal_holds k Hk) as H3.
  pose proof (mul_holds _ _ _ _ H1 H12 Ha) as H4.
  pose proof (mul_holds _ _ _ _ H4 H3 Hb) as H5.
  unfold figures. cbn [annualTrail bookValue]. split; assumption.
Qed.

Lemma whole_bound (n k : N) :
  (0 < k)%N -> Z.of_N (n * 12 * k) < 2 ^ 53 -> Z.of_N (n * 12) < 2 ^ 53.
Proof.
  intros Hk Hb. rewrite !N2Z.inj_mul in *.
  change (2 ^ 53) with 9007199254740992 in *. nia.
Qed.

(** X9.  For a whole trail [n] and a whole multiple [k >= 1] with
    [n * 12 * k < 2^53], the binary64 products are exact: the annual trail
    is the integer [n * 12] and the book value the integer [n * 12 * k]. *)
Theorem whole_figures_exact (n k : N) (p : jsstring) :
  (0 < k)%N -> Z.of_N k < 2 ^ 53 -> Z.of_N (n * 12 * k) < 2 ^ 53 ->
  let f := figures (of_decimal false n 0) (of_decimal false k 0) p in
  to_Z (annualTrail f) = Some (Z.of_N n * 12) /\
  to_Z (bookValue f) = Some (Z.of_N n * 12 * Z.of_N k).
Proof.
  intros Hk Hk' Hb. cbv zeta.
  destruct (figures_whole n k p Hk' (whole_bound n k Hk Hb) Hb) as [H4 H5].
  rewrite (holds_to_Z _ _ H4), (holds_to_Z _ _ H5).
  split; f_equal; lia.
Qed.

(** A trail of 10000 and the multiple 3. *)
Lemma whole_figures_exact_sample :
  to_Z (bookValue (figures (of_decimal false 10000 0) (of_decimal false 3 0)
                     (str "acquisition")))
  = Some 360000.
Proof.
  destruct (whole_figures_exact 10000 3 (str "acquisition")) as (_ & H).
  - reflexivity.
  - reflexivity.
  - reflexivity.
  - exact H.
Defined.

(** X10.  On a complete page whose multiple reads as the whole number
    [k >= 1], with [n] the number the digits of the trail field make and
    [n * 12 * k < 2^53], the cards show exactly [n], [n * 12] and
    [n * 12 * k], each after a dollar sign and with thousands separators. *)
Theorem whole_cards_exact (p : Page) (trail multiple : Element) (k : N) :
  complete p ->
  elements p !! "monthlyTrail" = Some trail ->
  elements p !! "bookMultiple" = Some multiple ->
  read_multiple (value multiple) = of_decimal false k 0 ->
  let n := digits_value (strip_non_digits (value trail)) in
  (0 < k)%N -> Z.of_N k < 2 ^ 53 -> Z.of_N (n * 12 * k) < 2 ^ 53 ->
  let p' := fst (calculate p) in
  text_of "displayMonthlyTrail" p' = Some (str "$" ++ group3 (to_digits n)) /\
  text_of "annualTrail" p' = Some (str "$" ++ group3 (to_digits (n * 12))) /\
  text_of "bookValue" p' = Some (str "$" ++ group3 (to_digits (n * 12 * k))).
Proof.
  intros Hc Ht Hm Hr. cbv zeta.
  remember (digits_value (strip_non_digits (value trail))) as n eqn:En.
  intros Hk Hk' Hb.
  pose proof (displayed_texts p trail multiple Ht Hm Hc) as H.
  unfold displayed in H.
  repeat (apply Forall_cons_1 in H as [? H]). cbn [fst snd] in *.
  rewrite parseFormattedNumber_eq, Hr in *. unfold spec_parseInteger in *.
  rewrite <- En in *.
  pose proof (whole_bound n k Hk Hb) as Ha.
  destruct (figures_whole n k (getSelectedPurpose p) Hk' Ha Hb) as [Fa Fb].
  cbv zeta in Fa, Fb.
  rewrite (formatCurrency_holds _ _ Fa Ha), (formatCurrency_holds _ _ Fb Hb) in *.
  rewrite formatCurrency_exact in * by lia.
  auto.
Qed.

(** The cards of the sample page. *)
Lemma whole_cards_exact_sample :
  text_of "annualTrail" (fst (calculate sample_page)) = Some (str "$120,000") /\
  text_of "bookValue" (fst (calculate sample_page)) = Some (str "$360,000").
Proof.
  destruct (whole_cards_exact sample_page (blank (str "10,000")) (blank (str "3")) 3)
    as (_ & Ha & Hb).
  - exact sample_page_complete.
  - reflexivity.
  - reflexivity.
  - vm_compute. reflexivity.
  - reflexivity.
  - reflexivity.
  - vm_compute. reflexivity.
  - split; [exact Ha|exact Hb].
Defined.

(** ** Formatting and parsing together *)

(** X11.  For a field whose digits make a number up to [2^53], the currency
    text of the parsed field is the dollar sign followed by the reformatted
    field; for a field without a digit, where the reformatted field is
    empty, it is $0. *)
Theorem formatCurrency_of_field (text : jsstring) :
  Z.of_N (digits_value (strip_non_digits text)) <= 2 ^ 53 ->
  formatCurrency (parseFormattedNumber text)
  = str "$" ++ match strip_non_digits text with
               | [] => str "0"
               | _ => formatNumberWithCommas text
               end.
Proof.
  intros Hn. rewrite parseFormattedNumber_eq. unfold spec_parseInteger.
  rewrite formatCurrency_exact by exact Hn.
  destruct (strip_non_digits text) as [|c r] eqn:E; [reflexivity|].
  rewrite formatNumberWithCommas_exact by (unfold spec_parseInteger; now rewrite E).
  unfold spec_formatWithGroupingSeparators. now rewrite E.
Qed.

(** A field with text after the digits. *)
Lemma formatCurrency_of_field_sample :
  formatCurrency (parseFormattedNumber (str "1234567 dollars"))
  = str "$" ++ formatNumberWithCommas (str "1234567 dollars").
Proof.
  apply (formatCurrency_of_field (str "1234567 dollars")). vm_compute. discriminate.
Defined.

(** X12.  Reformatting a reformatted text changes nothing, for a text whose
    digits make a number up to [2^53]. *)
Theorem formatNumberWithCommas_idempotent (text : jsstring) :
  Z.of_N (digits_value (strip_non_digits text)) <= 2 ^ 53 ->
  formatNumberWithCommas (formatNumberWithCommas text) = formatNumberWithCommas text.
Proof.
  intros Hn.
  rewrite (formatNumberWithCommas_exact text) by exact Hn.
  unfold spec_formatWithGroupingSeparators.
  destruct (strip_non_digits text) as [|c r] eqn:E; [reflexivity|].
  set (n := digits_value (c :: r)) in *.
  assert (Hs : strip_non_digits (group3 (to_digits n)) = to_digits n)
    by apply group3_strip, to_digits_digits.
  rewrite formatNumberWithCommas_exact
    by (unfold spec_parseInteger; now rewrite Hs, to_digits_value).
  unfold spec_formatWithGroupingSeparators. rewrite Hs.
  destruct (to_digits n) as [|d ds] eqn:Ed; [now apply to_digits_nonempty in Ed|].
  now rewrite <- Ed, to_digits_value.
Qed.

(** A text with a letter among the digits. *)
Lemma formatNumberWithCommas_idempotent_sample :
  formatNumberWithCommas (formatNumberWithCommas (str "12a34567"))
  = formatNumberWithCommas (str "12a34567").
Proof.
  apply (formatNumberWithCommas_idempotent (str "12a34567")). vm_compute. discriminate.
Defined.

Lemma digits_value_zero (ds : jsstring) :
  digits_value (48%N :: ds) = digits_value ds.
Proof. reflexivity. Qed.

(** X13.  A zero typed in front of a text that has a digit does not change
    the reformatted text: leading zeros are dropped. *)
Theorem formatNumberWithCommas_leading_zero (text : jsstring) :
  strip_non_digits text <> [] ->
  formatNumberWithCommas (48%N :: text) = formatNumberWithCommas text.
Proof.
  intros Hne. unfold formatNumberWithCommas.
  change (strip_non_digits (48%N :: text)) with (48%N :: strip_non_digits text).
  pose proof (strip_non_digits_digits text) as Hd.
  destruct (strip_non_digits text) as [|c r]; [contradiction|].
  rewrite !parseInt10_digits by (repeat constructor; inversion Hd; assumption).
  now rewrite digits_value_zero.
Qed.

(** 007 and 07 are reformatted alike. *)
Lemma formatNumberWithCommas_leading_zero_sample :
  formatNumberWithCommas (str "007") = formatNumberWithCommas (str "07").
Proof.
  apply (formatNumberWithCommas_leading_zero (str "07")). vm_compute. discriminate.
Defined.

(** ** The input handler on any selection *)

Lemma reformat_found (e : Event) (p : Page) (input : Element) :
  elements p !! target e = Some input ->
  let formatted := formatNumberWithCommas (value input) in
  let newPosition :=
    Z.max 0 (selectionStart input
             + (Z.of_nat (length formatted) - Z.of_nat (length (value input)))) in
  reformat e p
  = (with_element (target e)
       (setSelectionRange newPosition newPosition (set_value formatted input)) p,
     Return newPosition).
Proof.
  intros H. unfold reformat. rewrite bind_getElementById, H. reflexivity.
Qed.

(** X14.  Wherever the selection was (also outside the text, or not
    collapsed), after the handler has reformatted the field the value is
    the reformatted text, the selection is collapsed and lies within the
    new value, the text content of the field and every other element are
    unchanged. *)
Theorem reformat_caret_in_range (e : Event) (p : Page) (input : Element) :
  elements p !! target e = Some input ->
  exists input',
    elements (fst (reformat e p)) !! target e = Some input' /\
    value input' = formatNumberWithCommas (value input) /\
    textContent input' = textContent input /\
    selectionStart input' = selectionEnd input' /\
    0 <= selectionStart input' <= Z.of_nat (length (value input')) /\
    (forall id, id <> target e ->
       elements (fst (reformat e p)) !! id = elements p !! id).
Proof.
  intros H. rewrite (reformat_found e p input H). cbn [fst].
  rewrite elements_with_element, lookup_insert_eq.
  eexists. split; [reflexivity|].
  unfold setSelectionRange, clamp_index.
  cbn [value set_value selectionStart selectionEnd textContent].
  repeat split; try reflexivity.
  - destruct (Z.ltb_spec (Z.max 0 (selectionStart input +
        (Z.of_nat (length (formatNumberWithCommas (value input)))
         - Z.of_nat (length (value input))))) 0); lia.
  - destruct (Z.ltb_spec (Z.max 0 (selectionStart input +
        (Z.of_nat (length (formatNumberWithCommas (value input)))
         - Z.of_nat (length (value input))))) 0); lia.
  - destruct (Z.ltb_spec (Z.max 0 (selectionStart input +
        (Z.of_nat (length (formatNumberWithCommas (value input)))
         - Z.of_nat (length (value input))))) 0); lia.
  - intros id Hid. now rewrite lookup_insert_ne.
Qed.

(** A selection that starts before the text and ends after it. *)
Lemma reformat_caret_in_range_sample :
  exists input',
    elements (fst (reformat {| target := "monthlyTrail" |}
                     (with_element "monthlyTrail"
                        {| value := str "12345678"; textContent := [];
                           selectionStart := -7; selectionEnd := 99 |} sample_page)))
      !! "monthlyTrail" = Some input' /\
    selectionStart input' = 0 /\ selectionEnd input' = 0.
Proof.
  destruct (reformat_caret_in_range {| target := "monthlyTrail" |}
              (with_element "monthlyTrail"
                 {| value := str "12345678"; textContent := [];
                    selectionStart := -7; selectionEnd := 99 |} sample_page)
              {| value := str "12345678"; textContent := [];
                 selectionStart := -7; selectionEnd := 99 |})
    as (input' & Hi & _).
  - reflexivity.
  - vm_compute in Hi. injection Hi as <-. eexists. split; [reflexivity|].
    split; reflexivity.
Defined.

(** X15.  On a field whose text is already formatted, with a collapsed
    selection inside the text, the reformatting leaves the page as it is
    and hands the caret position back unchanged. *)
Theorem reformat_formatted_unchanged (e : Event) (p : Page) (input : Element) :
  elements p !! target e = Some input ->
  formatNumberWithCommas (value input) = value input ->
  0 <= selectionStart input <= Z.of_nat (length (value input)) ->
  selectionEnd input = selectionStart input ->
  reformat e p = (p, Return (selectionStart input)).
Proof.
  intros H Hf Hc He. rewrite (reformat_found e p input H). cbv zeta.
  rewrite Hf, Z.sub_diag, Z.add_0_r, Z.max_r by lia.
  f_equal. destruct p as [els lp cc lc]. unfold with_element. cbn in *.
  f_equal. apply insert_id. rewrite H. f_equal.
  destruct input as [v t s1 s2]. unfold setSelectionRange, set_value, clamp_index.
  cbn in *. subst s2.
  destruct (Z.ltb_spec s1 0); [lia|].
  f_equal; lia.
Qed.

(** The field holds 1,234 with the caret after the comma. *)
Lemma reformat_formatted_unchanged_sample :
  let p := with_element "monthlyTrail"
             {| value := str "1,234"; textContent := [];
                selectionStart := 2; selectionEnd := 2 |} sample_page in
  reformat {| target := "monthlyTrail" |} p = (p, Return 2).
Proof.
  cbv zeta.
  apply (reformat_formatted_unchanged {| target := "monthlyTrail" |}
           (with_element "monthlyTrail"
              {| value := str "1,234"; textContent := [];
                 selectionStart := 2; selectionEnd := 2 |} sample_page)
           {| value := str "1,234"; textContent := [];
              selectionStart := 2; selectionEnd := 2 |}).
  - reflexivity.
  - vm_compute. reflexivity.
  - simpl. lia.
  - reflexivity.
Defined.

Lemma handleCurrencyInput_found (e : Event) (l : Loop (list Event) Page)
    (input : Element) :
  elements (app l) !! target e = Some input ->
  exists input',
    handleCurrencyInput e l
    = debouncedCalculate [] (set_app (with_element (target e) input' (app l)) l).
Proof.
  intros H. unfold handleCurrencyInput. rewrite (reformat_found e (app l) input H).
  eexists. reflexivity.
Qed.

(** ** Timelines of calls *)

Section Timeline.
Context {A S : Type}.
Variable func : A -> S -> S.
Variable delay : N.

Lemma run_timeline (calls : list (N * A)) (l : Loop A S) (i : nat) (c : N * A) (T : N) :
  single_flight l -> pending l = {[i := ((c.1 + delay)%N, c.2)]} -> now l = c.1 ->
  in_order c.1 calls ->
  ((List.last calls c).1 + delay <= T)%N ->
  let l' := run func delay (calls_at calls ++ [Wait T]) l in
  fired l' = fired l ++ map (fun c => ((c.1 + delay)%N, c.2)) (survivors delay (c :: calls)) /\
  app l' = fold_left (fun s c => func c.2 s) (survivors delay (c :: calls)) (app l) /\
  pending l' = ∅.
Proof.
  revert l i c. induction calls as [|d r IH]; intros l i c H Hp Hn Ho HT.
  - cbv zeta.
    change (run func delay (calls_at [] ++ [Wait T]) l) with (advance func T l).
    simpl in HT. rewrite (advance_due func T l i _ Hp) by (simpl; lia).
    simpl. auto.
  - destruct Ho as [Hle Ho]. rewrite last_cons in HT. cbv zeta.
    change (run func delay (calls_at (d :: r) ++ [Wait T]) l)
      with (run func delay (calls_at r ++ [Wait T])
              (debounce delay d.2 (advance func d.1 l))).
    change (survivors delay (c :: d :: r))
      with (if (c.1 + delay <=? d.1)%N then c :: survivors delay (d :: r)
            else survivors delay (d :: r)).
    destruct (N.leb_spec (c.1 + delay) d.1) as [Hdue|Hearly].
    + rewrite (advance_due func d.1 l i _ Hp) by (simpl; lia).
      match goal with |- context [debounce delay d.2 ?x] => set (l1 := x) end.
      assert (H1 : single_flight l1).
      { intros j x. unfold l1. simpl. now rewrite lookup_empty. }
      destruct (debounce_rearms delay d.2 l1 H1) as [Hp1 Hd1].
      destruct (debounce_frame delay d.2 l1) as (Hn1 & Ha1 & Hf1).
      pose proof (debounce_single_flight delay d.2 l1 H1) as H2.
      destruct (IH (debounce delay d.2 l1) (next_timer l1) d H2 Hp1 Hn1 Ho HT)
        as (Hf & Ha & Hpe).
      rewrite Hf, Ha, Hf1, Ha1. unfold l1. simpl.
      rewrite <- app_assoc. auto.
    + destruct (call_in_window func delay d.1 d.2 l H) as (H' & Hp' & Hn' & Ha' & Hf').
      * lia.
      * intros j x. rewrite Hp. intros [_ <-]%lookup_singleton_Some. simpl. lia.
      * destruct (IH _ _ d H' Hp' Hn' Ho HT) as (Hf & Ha & Hpe).
        rewrite Hf, Ha, Hf', Ha'. auto.
Qed.

End Timeline.

Lemma debounce_due_soon {A S} (delay : N) (args : A) (l : Loop A S) :
  single_flight l -> due_soon delay (debounce delay args l).
Proof.
  intros Hs. destruct (debounce_rearms delay args l Hs) as [Hp _].
  destruct (debounce_frame delay args l) as (Hn & _).
  intros i x. rewrite Hp, Hn. intros [_ <-]%lookup_singleton_Some. simpl. lia.
Qed.

(** X16.  For calls of the debounced function at non-decreasing times,
    followed by a wait until the timer of the last one is due, the
    callbacks that run are exactly those of the calls with no later call
    before their timer is due, in order, each [delay] after its call and
    with its arguments; nothing is pending afterwards. *)
Theorem debounce_timeline {A S} (func : A -> S -> S) (delay : N) (s : S)
    (c : N * A) (calls : list (N * A)) (T : N) :
  in_order c.1 calls ->
  ((List.last calls c).1 + delay <= T)%N ->
  let final := run func delay (calls_at (c :: calls) ++ [Wait T]) (start s) in
  fired final = map (fun c => ((c.1 + delay)%N, c.2)) (survivors delay (c :: calls)) /\
  app final = fold_left (fun s c => func c.2 s) (survivors delay (c :: calls)) s /\
  pending final = ∅.
Proof.
  intros Ho HT final. subst final.
  change (run func delay (calls_at (c :: calls) ++ [Wait T]) (start s))
    with (run func delay (calls_at calls ++ [Wait T])
            (debounce delay c.2 (advance func c.1 (start s)))).
  destruct (call_in_window func delay c.1 c.2 (start s))
    as (H1 & Hp1 & Hn1 & Ha1 & Hf1).
  { apply start_single_flight. }
  { simpl. lia. }
  { intros i x. simpl. now rewrite lookup_empty. }
  destruct (run_timeline func delay calls _ _ c T H1 Hp1 Hn1 Ho HT) as (Hf & Ha & Hp).
  rewrite Hf, Ha, Hf1, Ha1. auto.
Qed.

(** Calls at 0, 100 and 500 with the delay 300: the first is cancelled by
    the second, whose callback runs at 400; that of the third runs at
    800. *)
Lemma debounce_timeline_sample :
  fired (run (fun (a : nat) (s : list nat) => a :: s) 300
           (calls_at [(0%N, 1%nat); (100%N, 2%nat); (500%N, 3%nat)] ++ [Wait 800%N])
           (start []))
  = [(400%N, 2%nat); (800%N, 3%nat)].
Proof.
  destruct (debounce_timeline (fun (a : nat) (s : list nat) => a :: s) 300 []
              (0%N, 1%nat) [(100%N, 2%nat); (500%N, 3%nat)] 800%N) as (H & _).
  - simpl. lia.
  - simpl. lia.
  - exact H.
Defined.

(** ** The listeners *)

Lemma advance_cases {A S} (func : A -> S -> S) (delay : N) (t : N) (l : Loop A S) :
  single_flight l -> due_soon delay l ->
  let l' := advance func t l in
  single_flight l' /\ due_soon delay l' /\
  (app l' = app l \/ exists args, app l' = func args (app l)).
Proof.
  intros Hs Hd. cbv zeta.
  destruct (single_flight_shape l Hs) as [E|(i & x & E & Ei)].
  - rewrite advance_idle; [|exact Hs|intros j y; rewrite E, lookup_empty; discriminate].
    split; [exact Hs|]. split; [|now left].
    intros j y. simpl. rewrite E, lookup_empty. discriminate.
  - destruct (Hd i x) as [Hlo Hhi]; [rewrite E; apply lookup_singleton_eq|].
    destruct (N.leb_spec x.1 t) as [Hdue|Hearly].
    + rewrite (advance_due func t l i x E Hlo Hdue).
      split; [intros j y; simpl; rewrite lookup_empty; discriminate|].
      split; [intros j y; simpl; rewrite lookup_empty; discriminate|].
      right. now exists x.2.
    + rewrite advance_idle;
        [|exact Hs|intros j y; rewrite E; intros [_ <-]%lookup_singleton_Some; exact Hearly].
      split; [exact Hs|]. split; [|now left].
      intros j y. simpl. rewrite E. intros [_ <-]%lookup_singleton_Some. lia.
Qed.

Lemma steady_debounce (args : list Event) (p : Page) (l : Loop (list Event) Page) :
  complete p -> single_flight l ->
  steady (debouncedCalculate args (set_app p l)).
Proof.
  intros Hc Hs. unfold debouncedCalculate.
  assert (Hs' : single_flight (set_app p l)) by exact Hs.
  destruct (debounce_rearms DEBOUNCE_DELAY args _ Hs') as [Hp Hd].
  destruct (debounce_frame DEBOUNCE_DELAY args (set_app p l)) as (Hn & Ha & Hf).
  split; [now rewrite Ha|].
  split; [now apply debounce_single_flight|].
  split.
  - intros i x. rewrite Hp, Hn. intros [_ <-]%lookup_singleton_Some. simpl. lia.
  - rewrite Hp. intros E. apply (f_equal (fun m => m !! next_timer (set_app p l))) in E.
    rewrite lookup_singleton_eq, lookup_empty in E. discriminate.
Qed.

Lemma steady_set_app (p : Page) (l : Loop (list Event) Page) :
  complete p -> synced p -> steady l -> steady (set_app p l).
Proof.
  intros Hc Hy (_ & Hs & Hd & _). split; [exact Hc|]. split; [exact Hs|].
  split; [exact Hd|]. intros _. exact Hy.
Qed.

Lemma steady_advance (t : N) (l : Loop (list Event) Page) :
  steady l -> steady (advance recompute t l).
Proof.
  intros (Hc & Hs & Hd & Hy).
  destruct (single_flight_shape l Hs) as [E|(i & x & E & Ei)].
  - rewrite advance_idle; [|exact Hs|intros j y; rewrite E, lookup_empty; discriminate].
    split; [exact Hc|]. split; [exact Hs|]. split.
    + intros j y. simpl. rewrite E, lookup_empty. discriminate.
    + intros _. simpl. now apply Hy.
  - destruct (Hd i x) as [Hlo Hhi]; [rewrite E; apply lookup_singleton_eq|].
    destruct (N.leb_spec x.1 t) as [Hdue|Hearly].
    + rewrite (advance_due recompute t l i x E Hlo Hdue).
      split; [now apply complete_recompute|].
      split; [intros j y; simpl; rewrite lookup_empty; discriminate|].
      split; [intros j y; simpl; rewrite lookup_empty; discriminate|].
      intros _. simpl. now apply synced_recompute.
    + rewrite advance_idle;
        [|exact Hs|intros j y; rewrite E; intros [_ <-]%lookup_singleton_Some; exact Hearly].
      split; [exact Hc|]. split; [exact Hs|]. split.
      * intros j y. simpl. rewrite E. intros [_ <-]%lookup_singleton_Some. lia.
      * simpl. rewrite E. intros E'.
        apply (f_equal (fun m => m !! i)) in E'.
        rewrite lookup_singleton_eq, lookup_empty in E'. discriminate.
Qed.

Lemma steady_dispatch (l : Loop (list Event) Page) (ev : UserEvent) :
  steady l -> steady (dispatch l ev).
Proof.
  intros H. pose proof H as (Hc & Hs & Hd & Hy).
  destruct ev as [text s e|text| |i|t]; unfold dispatch.
  - destruct (elements (app l) !! "monthlyTrail") as [el|] eqn:E; [|exact H].
    destruct (handleCurrencyInput_found {| target := "monthlyTrail" |}
                (set_app (with_element "monthlyTrail" (edit text s e el) (app l)) l)
                (edit text s e el)) as [input' Hh].
    { cbn [target app set_app]. rewrite elements_with_element. apply lookup_insert_eq. }
    rewrite Hh. apply steady_debounce; [|exact Hs].
    cbn [target app set_app]. apply complete_with_element.
    + rewrite elements_with_element, lookup_insert_eq. eauto.
    + apply complete_with_element; [rewrite E; eauto|exact Hc].
  - destruct (elements (app l) !! "bookMultiple") as [el|] eqn:E; [|exact H].
    apply steady_debounce; [|exact Hs].
    apply complete_with_element; [rewrite E; eauto|exact Hc].
  - destruct (elements (app l) !! "bookMultiple") as [el|] eqn:E; [|exact H].
    apply steady_set_app; [now apply complete_recompute|now apply synced_recompute|exact H].
  - destruct (loanPurpose (app l) !! i) as [r|] eqn:E; [|exact H].
    assert (Hc' : complete (check_radio i (app l))) by exact Hc.
    apply steady_set_app; [now apply complete_recompute|now apply synced_recompute|exact H].
  - now apply steady_advance.
Qed.

Lemma steady_play (events : list UserEvent) (l : Loop (list Event) Page) :
  steady l -> steady (play events l).
Proof.
  revert l. induction events as [|ev r IH]; intros l H; [exact H|].
  simpl. apply IH. now apply steady_dispatch.
Qed.

Lemma steady_load (p : Page) : complete p -> steady (load p).
Proof.
  intros H. unfold load. split; [now apply complete_recompute|].
  split; [apply start_single_flight|].
  split; [intros i x; simpl; rewrite lookup_empty; discriminate|].
  intros _. now apply synced_recompute.
Qed.

Lemma orderly_dispatch (l : Loop (list Event) Page) (ev : UserEvent) :
  orderly l -> orderly (dispatch l ev).
Proof.
  intros H. pose proof H as (Hs & Hd & Hc).
  destruct ev as [text s e|text| |i|t]; unfold dispatch.
  - destruct (elements (app l) !! "monthlyTrail") as [el|] eqn:E; [|exact H].
    destruct (handleCurrencyInput_found {| target := "monthlyTrail" |}
                (set_app (with_element "monthlyTrail" (edit text s e el) (app l)) l)
                (edit text s e el)) as [input' Hh].
    { cbn [target app set_app]. rewrite elements_with_element. apply lookup_insert_eq. }
    rewrite Hh. unfold debouncedCalculate.
    match goal with |- orderly (debounce _ _ ?x) => set (l1 := x) end.
    assert (H1 : single_flight l1) by exact Hs.
    split; [now apply debounce_single_flight|].
    split; [now apply debounce_due_soon|].
    destruct (debounce_frame DEBOUNCE_DELAY ([] : list Event) l1) as (_ & Ha & _).
    rewrite Ha. exact Hc.
  - destruct (elements (app l) !! "bookMultiple") as [el|] eqn:E; [|exact H].
    unfold debouncedCalculate.
    match goal with |- orderly (debounce _ ?a ?x) => set (l1 := x); set (args := a) end.
    assert (H1 : single_flight l1) by exact Hs.
    split; [now apply debounce_single_flight|].
    split; [now apply debounce_due_soon|].
    destruct (debounce_frame DEBOUNCE_DELAY args l1) as (_ & Ha & _).
    rewrite Ha. exact Hc.
  - destruct (elements (app l) !! "bookMultiple") as [el|] eqn:E; [|exact H].
    split; [exact Hs|]. split; [exact Hd|]. now apply recompute_accounted.
  - destruct (loanPurpose (app l) !! i) as [r|] eqn:E; [|exact H].
    split; [exact Hs|]. split; [exact Hd|].
    cbn [app set_app]. apply recompute_accounted. exact Hc.
  - destruct (advance_cases recompute DEBOUNCE_DELAY t l Hs Hd) as (Hs' & Hd' & Ha).
    split; [exact Hs'|]. split; [exact Hd'|].
    destruct Ha as [Ha|[args Ha]]; rewrite Ha; [exact Hc|now apply recompute_accounted].
Qed.

(** X17.  From the load of a page whose live charts are accounted for,
    whatever the user does later (typing in either field, releasing the
    slider, choosing a purpose) and however time passes, at most one timer
    is pending and at most one chart is alive. *)
Theorem one_timer_one_chart (p : Page) (events : list UserEvent) :
  chart_accounted p ->
  let l := play events (load p) in
  (size (pending l) <= 1)%nat /\ (live_charts (app l) <= 1)%nat.
Proof.
  intros Hp. cbv zeta.
  assert (H : orderly (play events (load p))).
  { assert (H0 : orderly (load p)).
    { split; [apply start_single_flight|].
      split; [intros i x; simpl; rewrite lookup_empty; discriminate|].
      now apply recompute_accounted. }
    revert H0. generalize (load p). induction events as [|ev r IH]; intros l H0.
    - exact H0.
    - simpl. apply IH. now apply orderly_dispatch. }
  destruct H as (Hs & _ & Hc). split; [now apply single_flight_size|].
  unfold chart_accounted in Hc. rewrite Hc. destruct (comparisonChart _); lia.
Qed.

(** Typing, waiting, moving the slider and choosing a purpose. *)
Lemma one_timer_one_chart_sample :
  (live_charts
     (app (play [TrailInput (str "2500") 4 4; Elapse 400; MultipleInput (str "4");
                 PurposeChange 1; MultipleChange]
             (load sample_page))) <= 1)%nat.
Proof.
  apply (one_timer_one_chart sample_page
           [TrailInput (str "2500") 4 4; Elapse 400; MultipleInput (str "4");
            PurposeChange 1; MultipleChange]).
  reflexivity.
Defined.

(** X18.  On a complete page, after any events, once [DEBOUNCE_DELAY] has
    passed since the last one, no timer is pending and every display
    target shows what the fields and the purpose now give: the text that a
    recomputation writes for them. *)
Theorem display_settles (p : Page) (events : list UserEvent) (T : N) :
  complete p ->
  (now (play events (load p)) + DEBOUNCE_DELAY <= T)%N ->
  let l := advance recompute T (play events (load p)) in
  pending l = ∅ /\
  exists trail multiple,
    elements (app l) !! "monthlyTrail" = Some trail /\
    elements (app l) !! "bookMultiple" = Some multiple /\
    Forall (fun d => text_of d.1 (app l) = Some d.2)
      (displayed (value trail) (value multiple) (getSelectedPurpose (app l))).
Proof.
  intros Hc HT l.
  pose proof (steady_play events (load p) (steady_load p Hc)) as Hl.
  pose proof (steady_advance T _ Hl) as (Hc' & _ & _ & Hy'). fold l in Hc', Hy'.
  assert (Hp : pending l = ∅).
  { destruct Hl as (_ & Hs & Hd & _). unfold l.
    destruct (single_flight_shape _ Hs) as [E|(i & x & E & Ei)].
    - rewrite advance_idle; [exact E|exact Hs|].
      intros j y. rewrite E, lookup_empty. discriminate.
    - destruct (Hd i x) as [Hlo Hhi]; [rewrite E; apply lookup_singleton_eq|].
      rewrite (advance_due recompute T _ i x E Hlo); [reflexivity|lia]. }
  split; [exact Hp|]. apply synced_texts; [exact Hc'|now apply Hy'].
Qed.

(** The same events, and a wait until 1000. *)
Lemma display_settles_sample :
  pending (advance recompute 1000
             (play [TrailInput (str "2500") 4 4; Elapse 400; MultipleInput (str "4");
                    PurposeChange 1]
                (load sample_page))) = ∅.
Proof.
  apply (display_settles sample_page
           [TrailInput (str "2500") 4 4; Elapse 400; MultipleInput (str "4");
            PurposeChange 1] 1000%N).
  - exact sample_page_complete.
  - vm_compute. discriminate.
Defined.

(** The radio [i] is the one checked after the browser checked it. *)
Lemma find_checked_imap (rs : list Radio) (i : nat) :
  List.find checked
    (imap (fun j r => {| radio_value := radio_value r;
                         checked := bool_decide (j = i) |}) rs)
  = (fun r => {| radio_value := radio_value r; checked := true |}) <$> rs !! i.
Proof.
  revert i. induction rs as [|r rs IH]; intros i; [reflexivity|].
  destruct i as [|i]; [reflexivity|].
  cbn [imap List.find checked]. rewrite bool_decide_eq_false_2 by discriminate.
  cbn [lookup list_lookup]. rewrite <- IH. f_equal.
  apply imap_ext. intros j x _. simpl. f_equal.
  apply bool_decide_ext. lia.
Qed.

Lemma getSelectedPurpose_check_radio (p : Page) (i : nat) (r : Radio) :
  loanPurpose p !! i = Some r ->
  getSelectedPurpose (check_radio i p) = radio_value r.
Proof.
  intros H. unfold getSelectedPurpose, check_radio. cbn [loanPurpose].
  rewrite find_checked_imap, H. reflexivity.
Qed.

Lemma recompute_purpose (args : list Event) (p : Page) :
  getSelectedPurpose (recompute args p) = getSelectedPurpose p.
Proof.
  destruct (calculate_same_fields p) as [H _].
  unfold recompute, getSelectedPurpose. now rewrite H.
Qed.

(** X19.  Choosing the radio [i] recomputes at once, without touching the
    timers or the clock: the selected purpose is the value of that radio,
    and the access label and the percentage text are those of that
    purpose. *)
Theorem purpose_change_immediate (l : Loop (list Event) Page) (i : nat) (r : Radio) :
  complete (app l) ->
  loanPurpose (app l) !! i = Some r ->
  let l' := dispatch l (PurposeChange i) in
  let acquisition := strict_eq (radio_value r) (str "acquisition") in
  getSelectedPurpose (app l') = radio_value r /\
  text_of "accessLabel" (app l')
    = Some (if acquisition then str "Acquisition Finance" else str "Working Capital") /\
  text_of "accessPercent" (app l')
    = Some ((if acquisition then str "70%" else str "50%") ++ str " of book value") /\
  pending l' = pending l /\ now l' = now l.
Proof.
  intros Hc Hr. cbv zeta. unfold dispatch. rewrite Hr. cbn [app set_app pending now].
  set (q := check_radio i (app l)).
  assert (Hq : complete q) by exact Hc.
  assert (Hp : getSelectedPurpose q = radio_value r)
    by now apply getSelectedPurpose_check_radio.
  split; [now rewrite recompute_purpose|].
  pose proof Hq as [[[trail Ht] [multiple Hm]] _].
  pose proof (displayed_texts q trail multiple Ht Hm Hq) as H.
  unfold displayed in H.
  repeat (apply Forall_cons_1 in H as [? H]). cbn [fst snd] in *.
  unfold figures in *. cbn [accessLabel accessPercent] in *.
  rewrite Hp in *. unfold recompute. auto.
Qed.

(** The second radio of the sample page is chosen. *)
Lemma purpose_change_immediate_sample :
  text_of "accessLabel" (app (dispatch (load sample_page) (PurposeChange 1)))
  = Some (str "Working Capital").
Proof.
  destruct (purpose_change_immediate (load sample_page) 1
              {| radio_value := str "working"; checked := false |}) as (_ & H & _).
  - apply complete_recompute, sample_page_complete.
  - reflexivity.
  - exact H.
Defined.

(** X20.  The change event of the multiple field recomputes at once,
    without touching the timers or the clock: every display target shows
    what the fields and the purpose give. *)
Theorem multiple_change_immediate (l : Loop (list Event) Page) :
  complete (app l) ->
  let l' := dispatch l MultipleChange in
  pending l' = pending l /\ now l' = now l /\
  exists trail multiple,
    elements (app l) !! "monthlyTrail" = Some trail /\
    elements (app l) !! "bookMultiple" = Some multiple /\
    Forall (fun d => text_of d.1 (app l') = Some d.2)
      (displayed (value trail) (value multiple) (getSelectedPurpose (app l))).
Proof.
  intros Hc. pose proof Hc as [[[trail Ht] [multiple Hm]] _].
  cbv zeta. unfold dispatch. rewrite Hm. cbn [app set_app pending now].
  split; [reflexivity|]. split; [reflexivity|].
  exists trail, multiple. split; [exact Ht|]. split; [reflexivity|].
  exact (displayed_texts (app l) trail multiple Ht Hm Hc).
Qed.

(** The slider of the sample page is released on 4. *)
Lemma multiple_change_immediate_sample :
  text_of "bookValue"
    (app (dispatch
            (set_app (with_element "bookMultiple" (blank (str "4"))
                        (app (load sample_page))) (load sample_page))
            MultipleChange))
  = Some (str "$480,000").
Proof.
  destruct (multiple_change_immediate
              (set_app (with_element "bookMultiple" (blank (str "4"))
                          (app (load sample_page))) (load sample_page)))
    as (_ & _ & trail & multiple & Ht & Hm & H).
  - apply complete_with_element; [vm_compute; eauto|].
    apply complete_recompute, sample_page_complete.
  - vm_compute in Ht, Hm. injection Ht as <-. injection Hm as <-.
    unfold displayed in H.
    repeat (apply Forall_cons_1 in H as [? H]). cbn [fst snd] in *.
    match goal with E : text_of "bookValue" _ = _ |- _ => rewrite E end.
    vm_compute. reflexivity.
Defined.

(** X21.  For a key that is a single character, the keypress listener
    prevents the default action exactly when the character is not a
    digit. *)
Theorem keypress_filter (c : code_unit) :
  keypress_prevented [c] = negb (is_digit c).
Proof.
  unfold keypress_prevented, strict_eq. cbn [existsb].
  rewrite orb_false_r.
  rewrite !bool_decide_eq_false_2 by discriminate.
  now rewrite !andb_true_r.
Qed.

(** ** The figures as numbers *)

Lemma shr_inv_start (m : Z) :
  0 <= m -> shr_inv m 1 {| shr_m := m; shr_r := false; shr_s := false |}.
Proof. intros Hm. exists 0, 0. simpl. repeat split; auto; lia. Qed.

Lemma shr_inv_step (m h : Z) (r : shr_record) :
  0 < h -> shr_inv m h r -> shr_inv m (2 * h) (shr_1 r).
Proof.
  intros Hh (b & t & Hm & Ht & Hb & Hr & Hs & Hq).
  destruct r as [q rr ss]. cbn [shr_m shr_r shr_s] in *. subst rr ss.
  assert (Hs : ((b =? 1) || negb (t =? 0))%bool = negb (b * h + t =? 0)).
  { destruct Hb as [-> | ->]; simpl (_ =? 1).
    - destruct (Z.eqb_spec t 0), (Z.eqb_spec (0 * h + t) 0); simpl; try reflexivity; lia.
    - destruct (Z.eqb_spec (1 * h + t) 0); [lia|reflexivity]. }
  assert (Ht' : 0 <= b * h + t < 2 * h) by (destruct Hb as [-> | ->]; lia).
  destruct q as [|[q|q|]|q]; try lia; cbn [shr_1 shr_m shr_r shr_s]; rewrite Hs;
    unfold shr_inv; cbn [shr_m shr_r shr_s].
  - exists 0, (b * h + t). repeat split; auto; lia.
  - rewrite Pos2Z.inj_xI in Hm. exists 1, (b * h + t). repeat split; auto; lia.
  - rewrite Pos2Z.inj_xO in Hm. exists 0, (b * h + t). repeat split; auto; lia.
  - exists 1, (b * h + t). repeat split; auto; lia.
Qed.

Lemma shr_inv_iter (n : positive) (m h : Z) (r : shr_record) :
  0 < h -> shr_inv m h r ->
  shr_inv m (h * 2 ^ Zpos n) (SpecFloat.iter_pos shr_1 n r).
Proof.
  revert h r. induction n as [n IH|n IH|]; intros h r Hh H; cbn [SpecFloat.iter_pos].
  - replace (h * 2 ^ Zpos n~1) with (2 * h * 2 ^ Zpos n * 2 ^ Zpos n).
    + assert (0 < 2 ^ Zpos n) by (apply Z.pow_pos_nonneg; lia).
      apply IH; [nia|]. apply IH; [lia|]. now apply shr_inv_step.
    + replace (Zpos n~1) with (Zpos n + Zpos n + 1) by lia.
      rewrite !Z.pow_add_r by lia. change (2 ^ 1) with 2. ring.
  - replace (h * 2 ^ Zpos n~0) with (h * 2 ^ Zpos n * 2 ^ Zpos n).
    + assert (0 < 2 ^ Zpos n) by (apply Z.pow_pos_nonneg; lia).
      apply IH; [nia|]. now apply IH.
    + replace (Zpos n~0) with (Zpos n + Zpos n) by lia.
      rewrite Z.pow_add_r by lia. ring.
  - change (2 ^ 1) with 2. rewrite Z.mul_comm. now apply shr_inv_step.
Qed.

(** Rounding to nearest, ties to even, is off by at most half a unit. *)
Lemma shr_inv_round (m h : Z) (r : shr_record) :
  0 < h -> shr_inv m h r ->
  let m1 := round_nearest_even (shr_m r) (loc_of_shr_record r) in
  shr_m r <= m1 <= shr_m r + 1 /\ 2 * Z.abs (m1 * h - m) <= h.
Proof.
  intros Hh (b & t & Hm & Ht & Hb & Hr & Hs & Hq).
  destruct r as [q rr ss]. cbn [shr_m shr_r shr_s] in *. subst rr ss.
  cbv zeta. unfold loc_of_shr_record.
  destruct Hb as [-> | ->]; simpl (_ =? 1);
    destruct (Z.eqb_spec t 0) as [Et|Et]; cbn [negb round_nearest_even].
  - split; [lia|]. nia.
  - split; [lia|]. nia.
  - destruct (Z.even q); split; try lia; nia.
  - split; [lia|]. nia.
Qed.

Lemma digits2_pos_bounds (p : positive) :
  2 ^ (Zpos (digits2_pos p) - 1) <= Zpos p < 2 ^ Zpos (digits2_pos p).
Proof.
  rewrite digits2_pos_size.
  pose proof (Pos.size_gt p) as Hgt. pose proof (Pos.size_le p) as Hle.
  apply Pos2Z.pos_lt_pos in Hgt. apply Pos2Z.pos_le_pos in Hle.
  rewrite Pos2Z.inj_pow in Hgt, Hle.
  change (Zpos 2) with 2 in *.
  replace (Zpos (Pos.size p)) with (Zpos (Pos.size p) - 1 + 1) in Hle by lia.
  rewrite Z.pow_add_r in Hle by lia. change (2 ^ 1) with 2 in Hle. lia.
Qed.

Lemma digits2_pos_eq (p : positive) (d : Z) :
  2 ^ (d - 1) <= Zpos p < 2 ^ d -> 0 < d -> Zpos (digits2_pos p) = d.
Proof.
  intros [Hlo Hhi] Hd. pose proof (digits2_pos_bounds p) as [Blo Bhi].
  assert (H1 : Zpos (digits2_pos p) - 1 < d).
  { apply (Z.pow_lt_mono_r_iff 2); lia. }
  assert (H2 : d - 1 < Zpos (digits2_pos p)).
  { apply (Z.pow_lt_mono_r_iff 2); lia. }
  lia.
Qed.

(** Rounding a long mantissa: the result has 53 digits and is within half
    a unit in the last place. *)
Lemma round_normal (s : bool) (m : positive) (e : Z) :
  let d := Zpos (digits2_pos m) in
  53 < d -> emin prec emax <= d + e - 53 -> d + e <= 1023 ->
  exists m' e',
    binary_round_aux prec emax s (Zpos m) e loc_Exact = S754_finite s m' e' /\
    Zpos (digits2_pos m') = 53 /\ d + e - 53 <= e' <= d + e - 52 /\
    2 * Z.abs (Zpos m' * 2 ^ (e' - e) - Zpos m) <= 2 ^ (d - 53).
Proof.
  intros d Hd Hmin Hmax.
  pose proof (digits2_pos_bounds m) as [Blo Bhi]. fold d in Blo, Bhi.
  unfold binary_round_aux, shr_fexp.
  change (Zdigits2 (Zpos m)) with d.
  assert (HF : fexp prec emax (d + e) - e = d - 53).
  { unfold fexp. unfold emin, prec, emax in *. lia. }
  rewrite HF. destruct (d - 53) as [|n|n] eqn:En; try lia.
  unfold shr. cbn [shr_record_of_loc].
  pose proof (shr_inv_iter n (Zpos m) 1 _ ltac:(lia) (shr_inv_start (Zpos m) ltac:(lia)))
    as Hinv.
  rewrite Z.mul_1_l in Hinv.
  set (r := SpecFloat.iter_pos shr_1 n _) in *.
  assert (Hh : 0 < 2 ^ Zpos n) by (apply Z.pow_pos_nonneg; lia).
  pose proof (shr_inv_round _ _ r Hh Hinv) as [Hm1 Herr]. cbv zeta in Hm1, Herr.
  set (m1 := round_nearest_even (shr_m r) (loc_of_shr_record r)) in *.
  assert (Hq : 2 ^ 52 <= shr_m r < 2 ^ 53).
  { destruct Hinv as (b & t & Hm & Ht & Hb & _ & _ & Hq0).
    assert (E1 : 2 ^ (d - 1) = 2 ^ 52 * 2 ^ Zpos n).
    { rewrite <- Z.pow_add_r by lia. f_equal. lia. }
    assert (E2 : 2 ^ d = 2 ^ 53 * 2 ^ Zpos n).
    { rewrite <- Z.pow_add_r by lia. f_equal. lia. }
    rewrite E1 in Blo. rewrite E2 in Bhi.
    change (2 ^ 52) with 4503599627370496 in *.
    change (2 ^ 53) with 9007199254740992 in *.
    destruct Hb as [-> | ->]; split; nia. }
  change (2 ^ 52) with 4503599627370496 in Hq.
  change (2 ^ 53) with 9007199254740992 in Hq.
  destruct (Z.eq_dec m1 9007199254740992) as [Ecarry|Ncarry].
  - rewrite Ecarry. change (Zdigits2 9007199254740992) with 54.
    assert (HF' : fexp prec emax (54 + (e + Zpos n)) - (e + Zpos n) = 1).
    { unfold fexp. unfold emin, prec, emax in *. lia. }
    rewrite HF'. cbn.
    assert (Hb : (e + Zpos n + 1 <=? emax - prec) = true)
      by (apply Z.leb_le; unfold emax, prec; lia).
    rewrite Hb. exists 4503599627370496%positive, (e + Zpos n + 1).
    split; [reflexivity|]. split; [reflexivity|]. split; [lia|].
    replace (e + Zpos n + 1 - e) with (Zpos n + 1) by lia.
    rewrite Z.pow_add_r by lia. change (2 ^ 1) with 2.
    rewrite Ecarry in Herr. lia.
  - destruct m1 as [|p1|p1] eqn:E1; try lia.
    assert (Hd1 : Zpos (digits2_pos p1) = 53).
    { apply digits2_pos_eq; [|lia].
      change (2 ^ (53 - 1)) with 4503599627370496.
      change (2 ^ 53) with 9007199254740992. lia. }
    change (Zdigits2 (Zpos p1)) with (Zpos (digits2_pos p1)). rewrite Hd1.
    assert (HF' : fexp prec emax (53 + (e + Zpos n)) - (e + Zpos n) = 0).
    { unfold fexp. unfold emin, prec, emax in *. lia. }
    rewrite HF'. cbn [shr_record_of_loc shr_m].
    assert (Hb : (e + Zpos n <=? emax - prec) = true)
      by (apply Z.leb_le; unfold emax, prec; lia).
    rewrite Hb. exists p1, (e + Zpos n).
    split; [reflexivity|]. split; [exact Hd1|]. split; [lia|].
    replace (e + Zpos n - e) with (Zpos n) by lia. exact Herr.
Qed.

Lemma Qpow2_pos (e : Z) : (0 < 2 ^ e)%Q.
Proof. apply Qpower_0_lt. reflexivity. Qed.

Lemma Qpow2_add (a b : Z) : (2 ^ (a + b) == 2 ^ a * 2 ^ b)%Q.
Proof. apply Qpower_plus. discriminate. Qed.

Lemma Qpow2_inject (k : Z) : 0 <= k -> (2 ^ k == inject_Z (2 ^ k))%Q.
Proof. intros Hk. symmetry. apply (Zpower_Qpower 2 k Hk). Qed.

Lemma Q_scaled_error (D P E : Z) :
  2 ^ 53 * Z.abs D <= P ->
  (Qabs (inject_Z D * 2 ^ E) <= inject_Z P * 2 ^ E / 2 ^ 53)%Q.
Proof.
  intros H. rewrite Qabs_Qmult.
  rewrite (Qabs_pos (2 ^ E)) by (apply Qlt_le_weak, Qpow2_pos).
  assert (Ha : (Qabs (inject_Z D) == inject_Z (Z.abs D))%Q) by reflexivity.
  rewrite Ha.
  assert (H' : (inject_Z (2 ^ 53) * inject_Z (Z.abs D) <= inject_Z P)%Q).
  { rewrite <- inject_Z_mult. now rewrite <- Zle_Qle. }
  pose proof (Qpow2_pos E) as Ht.
  assert (E53 : (2 ^ 53 == inject_Z (2 ^ 53))%Q) by (apply Qpow2_inject; lia).
  rewrite E53.
  change (inject_Z (2 ^ 53)) with (9007199254740992%Q) in *.
  set (a := inject_Z (Z.abs D)) in *. set (p := inject_Z P) in *.
  set (t := (2 ^ E)%Q) in *. clearbody a p t. clear Ha E53 H.
  apply Qle_shift_div_l; [reflexivity|]. nra.
Qed.

Lemma mul_normal (mx my : positive) (ex ey : Z) :
  Zpos (digits2_pos mx) = 53 -> Zpos (digits2_pos my) = 53 ->
  -1126 <= ex + ey <= 917 ->
  exists m e,
    mul (S754_finite false mx ex) (S754_finite false my ey) = S754_finite false m e /\
    Zpos (digits2_pos m) = 53 /\ ex + ey + 52 <= e <= ex + ey + 54 /\
    (Qabs (inject_Z (Zpos m) * 2 ^ e
           - inject_Z (Zpos mx) * 2 ^ ex * (inject_Z (Zpos my) * 2 ^ ey))
     <= inject_Z (Zpos mx) * 2 ^ ex * (inject_Z (Zpos my) * 2 ^ ey) / 2 ^ 53)%Q.
Proof.
  intros Hx Hy HE.
  pose proof (digits2_pos_bounds mx) as Bx. pose proof (digits2_pos_bounds my) as By.
  rewrite Hx in Bx. rewrite Hy in By.
  change (2 ^ (53 - 1)) with 4503599627370496 in *.
  change (2 ^ 53) with 9007199254740992 in *.
  pose proof (digits2_pos_bounds (mx * my)) as [Blo Bhi].
  set (d := Zpos (digits2_pos (mx * my))) in *.
  rewrite Pos2Z.inj_mul in Blo, Bhi.
  assert (Hd : 105 <= d <= 106).
  { assert (H1 : d - 1 < 106).
    { apply (Z.pow_lt_mono_r_iff 2); [lia|lia|].
      change (2 ^ 106) with (9007199254740992 * 9007199254740992). nia. }
    assert (H2 : 104 < d).
    { apply (Z.pow_lt_mono_r_iff 2); [lia|lia|].
      change (2 ^ 104) with (4503599627370496 * 4503599627370496). nia. }
    lia. }
  destruct (round_normal false (mx * my) (ex + ey)) as (m & e & Heq & Hm & He & Herr).
  { fold d. lia. }
  { fold d. unfold emin, prec, emax. lia. }
  { fold d. lia. }
  fold d in He, Herr. rewrite Pos2Z.inj_mul in Herr.
  exists m, e. split; [exact Heq|]. split; [exact Hm|]. split; [lia|].
  set (k := e - (ex + ey)) in *.
  set (D := Zpos m * 2 ^ k + - (Zpos mx * Zpos my)).
  assert (HD : 2 ^ 53 * Z.abs D <= Zpos mx * Zpos my).
  { assert (E1 : 2 ^ (d - 1) = 2 ^ 52 * 2 ^ (d - 53)).
    { rewrite <- Z.pow_add_r by lia. f_equal. lia. }
    rewrite E1 in Blo.
    assert (0 < 2 ^ (d - 53)) by (apply Z.pow_pos_nonneg; lia).
    replace (Zpos m * 2 ^ k - Zpos mx * Zpos my) with D in Herr by (unfold D; lia).
    change (2 ^ 52) with 4503599627370496 in *.
    change (2 ^ 53) with 9007199254740992 in *. lia. }
  assert (Hv : (inject_Z (Zpos m) * 2 ^ e
                - inject_Z (Zpos mx) * 2 ^ ex * (inject_Z (Zpos my) * 2 ^ ey)
                == inject_Z D * 2 ^ (ex + ey))%Q).
  { unfold D. rewrite inject_Z_plus, inject_Z_opp, !inject_Z_mult.
    rewrite <- (Qpow2_inject k) by (unfold k; lia).
    replace e with (k + (ex + ey)) by (unfold k; lia).
    rewrite (Qpow2_add k), (Qpow2_add ex ey). ring. }
  assert (Hp : (inject_Z (Zpos mx) * 2 ^ ex * (inject_Z (Zpos my) * 2 ^ ey)
                == inject_Z (Zpos mx * Zpos my) * 2 ^ (ex + ey))%Q).
  { rewrite inject_Z_mult, (Qpow2_add ex ey). ring. }
  rewrite Hv, Hp. now apply Q_scaled_error.
Qed.

Lemma binary_round_canonical (s : bool) (p : positive) :
  Zpos (digits2_pos p) <= 53 ->
  exists m e, binary_round prec emax s p 0 = S754_finite s m e /\
    Zpos (digits2_pos m) = 53 /\ -52 <= e <= 0 /\ Zpos m = Zpos p * 2 ^ (- e).
Proof.
  intros Hd. unfold binary_round, shl_align.
  assert (Hf : fexp prec emax (Zpos (digits2_pos p) + 0) = Zpos (digits2_pos p) - 53).
  { unfold fexp, emin, prec, emax. lia. }
  rewrite Hf.
  destruct (Zpos (digits2_pos p) - 53 - 0) as [|k|k] eqn:Hk; try lia.
  - exists p, 0. split; [|split; [lia|split; [lia|simpl; lia]]].
    apply binary_round_aux_exact; unfold fexp, emin, prec, emax; lia.
  - exists (Pos.iter xO p k), (Zpos (digits2_pos p) - 53).
    split; [|split; [rewrite iter_xO_digits; lia|split; [lia|]]].
    + apply binary_round_aux_exact; rewrite ?iter_xO_digits;
        unfold fexp, emin, prec, emax; lia.
    + rewrite iter_xO_value. f_equal. f_equal. lia.
Qed.

(** Halving a number is exact. *)
Lemma mul_half (m : positive) (e : Z) :
  Zpos (digits2_pos m) = 53 -> -1073 <= e <= 972 ->
  mul (S754_finite false m e) (S754_finite false 4503599627370496 (-53))
  = S754_finite false m (e - 1).
Proof.
  intros Hm He. unfold mul, SFmul, binary_round_aux, shr_fexp. cbn [xorb].
  pose proof (digits2_pos_bounds m) as Bm. rewrite Hm in Bm.
  change (2 ^ (53 - 1)) with 4503599627370496 in Bm.
  change (2 ^ 53) with 9007199254740992 in Bm.
  assert (Hd : Zpos (digits2_pos (m * 4503599627370496)) = 105).
  { apply digits2_pos_eq; [|lia]. rewrite Pos2Z.inj_mul.
    change (2 ^ (105 - 1)) with (4503599627370496 * 4503599627370496).
    change (2 ^ 105) with (9007199254740992 * 4503599627370496). lia. }
  change (Zdigits2 (Zpos (m * 4503599627370496)))
    with (Zpos (digits2_pos (m * 4503599627370496))).
  rewrite Hd.
  assert (HF : fexp prec emax (105 + (e + -53)) - (e + -53) = 52).
  { unfold fexp, emin, prec, emax. lia. }
  rewrite HF. unfold shr. cbn [shr_record_of_loc].
  rewrite Pos2Z.inj_mul. change (Zpos 4503599627370496) with (2 ^ Zpos 52).
  rewrite iter_shr_1_exact by lia.
  cbn [shr_m shr_r shr_s loc_of_shr_record round_nearest_even].
  change (Zdigits2 (Zpos m)) with (Zpos (digits2_pos m)). rewrite Hm.
  assert (HF' : fexp prec emax (53 + (e + -53 + 52)) - (e + -53 + 52) = 0).
  { unfold fexp, emin, prec, emax. lia. }
  rewrite HF'. cbn [shr_record_of_loc shr_m].
  assert (Hb : (e + -53 + 52 <=? emax - prec) = true)
    by (apply Z.leb_le; unfold emax, prec; lia).
  rewrite Hb. f_equal. lia.
Qed.

Lemma holds_value (x : Number) (n : N) :
  holds_integer x n ->
  exists q, exact_value x = Some q /\ (q == inject_Z (Z.of_N n))%Q.
Proof.
  destruct n as [|p]; simpl.
  - intros ->. exists 0%Q. split; reflexivity.
  - intros (m & e & -> & He & Hm). eexists. split; [reflexivity|].
    cbn [exact_value]. rewrite Hm, inject_Z_mult.
    rewrite <- (Qpow2_inject (- e)) by lia.
    rewrite <- Qmult_assoc, <- Qpow2_add.
    replace (- e + e) with 0 by lia. change (2 ^ 0)%Q with 1%Q. ring.
Qed.

(** A whole number below [2^53] is held with a mantissa of 53 digits. *)
Lemma of_decimal_canonical (n : N) :
  (0 < n)%N -> Z.of_N n < 2 ^ 53 ->
  exists m e, of_decimal false n 0 = S754_finite false m e /\
              Zpos (digits2_pos m) = 53 /\ -52 <= e <= 0 /\
              Zpos m = Z.of_N n * 2 ^ (- e).
Proof.
  intros Hn Hb. destruct n as [|p]; [lia|].
  rewrite of_decimal_int. apply binary_round_canonical.
  apply digits2_pos_bound; [lia|exact Hb].
Qed.

Lemma value_pos (m : positive) (e : Z) : (0 < inject_Z (Zpos m) * 2 ^ e)%Q.
Proof.
  apply Qmult_lt_0_compat; [|apply Qpow2_pos].
  rewrite <- (Zlt_Qlt 0). lia.
Qed.

(** The binary64 number nearest 0.7 is less than [2^-54] away from it. *)
Lemma seven_tenths_error (B X : Q) :
  (0 <= B)%Q ->
  (Qabs (X - B * (inject_Z 6305039478318694 * 2 ^ (-53)))
   <= B * (inject_Z 6305039478318694 * 2 ^ (-53)) / 2 ^ 53)%Q ->
  (Qabs (X - (7 # 10) * B) <= B / 2 ^ 52)%Q.
Proof.
  intros HB H.
  assert (Ec : (inject_Z 6305039478318694 * 2 ^ (-53)
                == 6305039478318694 # 9007199254740992)%Q) by reflexivity.
  assert (E53 : (2 ^ 53 == 9007199254740992)%Q) by reflexivity.
  assert (E52 : (2 ^ 52 == 4503599627370496)%Q) by reflexivity.
  rewrite Ec, E53 in H. rewrite E52.
  apply Qabs_Qle_condition in H. apply Qabs_Qle_condition.
  destruct H as [H1 H2].
  assert (H1' : (- (B * (6305039478318694 # 9007199254740992)
                    * (1 # 9007199254740992))
                 <= X - B * (6305039478318694 # 9007199254740992))%Q)
    by (unfold Qdiv in H1; exact H1).
  assert (H2' : (X - B * (6305039478318694 # 9007199254740992)
                 <= B * (6305039478318694 # 9007199254740992)
                    * (1 # 9007199254740992))%Q)
    by (unfold Qdiv in H2; exact H2).
  unfold Qdiv. change (/ 4503599627370496)%Q with (1 # 4503599627370496)%Q.
  split; lra.
Qed.

Lemma to_Z_holds (m : positive) (e kz : Z) :
  to_Z (S754_finite false m e) = Some kz -> e <= 0 ->
  0 < kz /\ holds_integer (S754_finite false m e) (Z.to_N kz).
Proof.
  unfold to_Z. intros H He.
  assert (Hp : 0 < 2 ^ (- e)) by (apply Z.pow_pos_nonneg; lia).
  assert (Hk : Zpos m = kz * 2 ^ (- e)).
  { destruct (Z.leb_spec 0 e) as [H0|H0].
    - assert (e = 0) by lia. subst e. simpl in H. injection H as <-. simpl. lia.
    - destruct (Z.eqb_spec (Zpos m mod 2 ^ (- e)) 0) as [Hm|Hm]; [|discriminate].
      simpl in H. injection H as <-.
      pose proof (Z.div_mod (Zpos m) (2 ^ (- e)) ltac:(lia)) as Hd. lia. }
  assert (Hkz : 0 < kz) by nia.
  split; [exact Hkz|].
  destruct (Z.to_N kz) as [|q] eqn:Eq; [lia|].
  exists m, e. split; [reflexivity|]. split; [exact He|].
  rewrite Hk. f_equal. lia.
Qed.

(** C1 (as amended).  For every whole monthly trail [n] with
    [n * 12 < 2^53], every positive binary64 multiple [k] (a mantissa [mk]
    of 53 digits and an exponent [ek] from -1000 to 900) and every purpose
    [p], the figures are these numbers: annualTrail is exactly [n * 12];
    bookValue is the binary64 product of annualTrail and [k], within the
    relative error [2^-53] of [n * 12 * k], and exactly [n * 12 * k] when
    [k] is whole and [n * 12 * k < 2^53]; for the acquisition purpose
    accessAmount is the binary64 product of bookValue and 0.7, within
    [bookValue * 2^-52] of [0.7 * bookValue], with the percentage "70%" and
    the label "Acquisition Finance"; for any other purpose accessAmount is
    exactly [0.5 * bookValue], with "50%" and "Working Capital". *)
Theorem figures_values (n : N) (mk : positive) (ek : Z) (p : jsstring) :
  Z.of_N n * 12 < 2 ^ 53 ->
  Zpos (digits2_pos mk) = 53 -> -1000 <= ek <= 900 ->
  let k := S754_finite false mk ek in
  let f := figures (of_decimal false n 0) k p in
  exists K A B X : Q,
    exact_value k = Some K /\
    exact_value (annualTrail f) = Some A /\
    exact_value (bookValue f) = Some B /\
    exact_value (accessAmount f) = Some X /\
    (A == inject_Z (Z.of_N n * 12))%Q /\
    (Qabs (B - A * K) <= A * K / 2 ^ 53)%Q /\
    (forall kz, to_Z k = Some kz -> Z.of_N n * 12 * kz < 2 ^ 53 ->
                (B == inject_Z (Z.of_N n * 12 * kz))%Q) /\
    (p = str "acquisition" ->
       (Qabs (X - (7 # 10) * B) <= B / 2 ^ 52)%Q /\
       accessPercent f = str "70%" /\ accessLabel f = str "Acquisition Finance") /\
    (p <> str "acquisition" ->
       (X == (1 # 2) * B)%Q /\
       accessPercent f = str "50%" /\ accessLabel f = str "Working Capital").
Proof.
  intros Hn Hmk Hek. cbv zeta.
  assert (E12 : of_decimal false 12 0 = S754_finite false 6755399441055744 (-49))
    by (vm_compute; reflexivity).
  assert (E7 : of_decimal false 7 (-1) = S754_finite false 6305039478318694 (-53))
    by (vm_compute; reflexivity).
  assert (E5 : of_decimal false 5 (-1) = S754_finite false 4503599627370496 (-53))
    by (vm_compute; reflexivity).
  assert (Hacq : strict_eq p (str "acquisition") = true -> p = str "acquisition")
    by (unfold strict_eq; apply bool_decide_eq_true_1).
  assert (Hwc : strict_eq p (str "acquisition") = false -> p <> str "acquisition")
    by (unfold strict_eq; apply bool_decide_eq_false_1).
  destruct (N.eq_dec n 0%N) as [->|Hn0].
  - (* the trail is zero: every figure is +0 *)
    exists (inject_Z (Zpos mk) * 2 ^ ek)%Q, 0%Q, 0%Q, 0%Q.
    unfold figures. cbn [annualTrail bookValue accessAmount accessPercent accessLabel].
    change (of_decimal false 0 0) with (S754_zero false). rewrite E12, E7, E5.
    change (mul (S754_zero false) (S754_finite false 6755399441055744 (-49)))
      with (S754_zero false).
    change (mul (S754_zero false) (S754_finite false mk ek)) with (S754_zero false).
    change (mul (S754_zero false) (S754_finite false 6305039478318694 (-53)))
      with (S754_zero false).
    change (mul (S754_zero false) (S754_finite false 4503599627370496 (-53)))
      with (S754_zero false).
    assert (E0 : (0 - 0 * (inject_Z (Zpos mk) * 2 ^ ek) == 0)%Q) by ring.
    assert (E1 : (0 * (inject_Z (Zpos mk) * 2 ^ ek) / 2 ^ 53 == 0)%Q)
      by (unfold Qdiv; ring).
    destruct (strict_eq p (str "acquisition")) eqn:Ep;
      (repeat (split; [reflexivity|]));
      (split; [rewrite E0, E1; discriminate|]);
      (split; [intros kz _ _; reflexivity|]);
      split; intros Hp.
    + split; [vm_compute; discriminate|]. split; reflexivity.
    + exfalso. apply Hp, Hacq. reflexivity.
    + exfalso. apply Hwc; [reflexivity|exact Hp].
    + split; [reflexivity|]. split; reflexivity.
  - assert (Hn1 : (0 < n)%N) by lia.
    assert (Hn53 : Z.of_N n < 2 ^ 53) by lia.
    destruct (of_decimal_canonical n Hn1 Hn53) as (mn & en & En & Hdn & Hen & Hmn).
    assert (HA : holds_integer (mul (of_decimal false n 0) (of_decimal false 12 0)) (n * 12)).
    { apply mul_holds; [now apply of_decimal_holds|now apply of_decimal_holds|].
      rewrite N2Z.inj_mul. exact Hn. }
    destruct (mul_normal mn 6755399441055744 en (-49) Hdn eq_refl ltac:(lia))
      as (mA & eA & EA & HdA & HeA & _).
    rewrite En, E12 in HA. rewrite EA in HA.
    destruct (holds_value _ _ HA) as (qA & HvA & HqA).
    cbn [exact_value] in HvA. injection HvA as <-.
    assert (HeA0 : eA <= 0).
    { destruct (n * 12)%N as [|q] eqn:Eq; simpl in HA; [discriminate|].
      destruct HA as (m' & e' & Hfe & He' & _). injection Hfe as _ ->. exact He'. }
    destruct (mul_normal mA mk eA ek HdA Hmk ltac:(lia))
      as (mB & eB & EB & HdB & HeB & HerrB).
    exists (inject_Z (Zpos mk) * 2 ^ ek)%Q, (inject_Z (Zpos mA) * 2 ^ eA)%Q,
      (inject_Z (Zpos mB) * 2 ^ eB)%Q.
    unfold figures. cbn [annualTrail bookValue accessAmount accessPercent accessLabel].
    rewrite En, E12, EA, EB, E7, E5.
    assert (HB : forall kz, to_Z (S754_finite false mk ek) = Some kz ->
                            Z.of_N n * 12 * kz < 2 ^ 53 ->
                            (inject_Z (Zpos mB) * 2 ^ eB
                             == inject_Z (Z.of_N n * 12 * kz))%Q).
    { intros kz Hkz Hb.
      assert (Hek0 : ek <= 0).
      { destruct (Z_le_gt_dec ek 0) as [|Hgt]; [assumption|exfalso].
        unfold to_Z in Hkz. destruct (Z.leb_spec 0 ek); [|lia].
        simpl in Hkz. injection Hkz as <-.
        pose proof (digits2_pos_bounds mk) as [Blo _]. rewrite Hmk in Blo.
        change (2 ^ (53 - 1)) with 4503599627370496 in Blo.
        assert (2 <= 2 ^ ek).
        { change 2 with (2 ^ 1) at 1. apply Z.pow_le_mono_r; lia. }
        change (2 ^ 53) with 9007199254740992 in Hb. nia. }
      destruct (to_Z_holds mk ek kz Hkz Hek0) as [Hpos Hk].
      assert (Hprod : Z.of_N (n * 12 * Z.to_N kz) = Z.of_N n * 12 * kz).
      { rewrite !N2Z.inj_mul, Z2N.id by lia. reflexivity. }
      assert (HBh : holds_integer (mul (S754_finite false mA eA) (S754_finite false mk ek))
                      (n * 12 * Z.to_N kz)).
      { apply mul_holds; [exact HA|exact Hk|]. rewrite Hprod. exact Hb. }
      rewrite EB in HBh. destruct (holds_value _ _ HBh) as (qB & HvB & HqB).
      cbn [exact_value] in HvB. injection HvB as <-. now rewrite HqB, Hprod. }
    destruct (strict_eq p (str "acquisition")) eqn:Ep.
    + destruct (mul_normal mB 6305039478318694 eB (-53) HdB eq_refl ltac:(lia))
        as (mX & eX & EX & _ & _ & HerrX).
      exists (inject_Z (Zpos mX) * 2 ^ eX)%Q. rewrite EX.
      repeat (split; [reflexivity|]).
      split; [now rewrite HqA, N2Z.inj_mul|].
      split; [exact HerrB|]. split; [exact HB|].
      split; intros Hp.
      * split; [|split; reflexivity].
        apply seven_tenths_error; [apply Qlt_le_weak, value_pos|exact HerrX].
      * exfalso. apply Hp, Hacq. reflexivity.
    + rewrite (mul_half mB eB HdB ltac:(lia)).
      exists (inject_Z (Zpos mB) * 2 ^ (eB - 1))%Q.
      repeat (split; [reflexivity|]).
      split; [now rewrite HqA, N2Z.inj_mul|].
      split; [exact HerrB|]. split; [exact HB|].
      split; intros Hp.
      * exfalso. apply Hwc; [reflexivity|exact Hp].
      * split; [|split; reflexivity].
        replace (eB - 1) with (eB + -1) by lia. rewrite Qpow2_add.
        change (2 ^ (-1))%Q with (1 # 2)%Q. ring.
Qed.

(** A trail of 10000, the multiple 3 and the acquisition purpose: the book
    value is 360000 and the access amount is within [360000 * 2^-52] of
    252000. *)
Lemma figures_values_10000_3 :
  let k := S754_finite false 6755399441055744 (-51) in
  let f := figures (of_decimal false 10000 0) k (str "acquisition") in
  of_decimal false 3 0 = k /\
  exists B X : Q,
    exact_value (bookValue f) = Some B /\
    exact_value (accessAmount f) = Some X /\
    (B == 360000)%Q /\ (Qabs (X - 252000) <= 360000 / 2 ^ 52)%Q.
Proof.
  cbv zeta. split; [vm_compute; reflexivity|].
  destruct (figures_values 10000 6755399441055744 (-51) (str "acquisition"))
    as (K & A & B & X & _ & _ & HB & HX & _ & _ & Hwhole & Hacq & _).
  - reflexivity.
  - reflexivity.
  - lia.
  - exists B, X. split; [exact HB|]. split; [exact HX|].
    assert (EB : (B == 360000)%Q).
    { rewrite (Hwhole 3); [reflexivity|vm_compute; reflexivity|reflexivity]. }
    split; [exact EB|].
    destruct (Hacq eq_refl) as [H _]. rewrite EB in H.
    assert (E : ((7 # 10) * 360000 == 252000)%Q) by reflexivity.
    now rewrite E in H.
Defined.

(** C1 as stated fails for the acquisition purpose: at a trail of 10000 and
    the multiple 3 the book value is 360000, and the access amount is the
    binary64 number next below 252000, not the number [0.7 * 360000]. *)
Lemma access_amount_not_seven_tenths :
  let f := figures (of_decimal false 10000 0) (of_decimal false 3 0)
             (str "acquisition") in
  exists B X : Q,
    exact_value (bookValue f) = Some B /\
    exact_value (accessAmount f) = Some X /\
    (B == 360000)%Q /\ ~ (X == (7 # 10) * B)%Q.
Proof.
  cbv zeta. eexists. eexists.
  split; [vm_compute; reflexivity|]. split; [vm_compute; reflexivity|].
  split; [vm_compute; reflexivity|]. vm_compute. discriminate.
Qed.
